(** * NeuroKit2 signal core: [signal_interpolate] and [signal_rate]

    A shallow embedding of [neurokit2/signal/signal_interpolate.py] and
    [neurokit2/signal/signal_rate.py].

    Numbers are IEEE-754 binary64 values (numpy's [float64]), embedded as
    Rocq's primitive floats; Python's unbounded [int] is [Z]; sequences
    (list, array) are lists; a call that may raise returns a [result]. *)

From Stdlib Require Import String Ascii DecimalString.
From Stdlib Require Import List ZArith Lia Bool.
From Stdlib Require Import Floats Uint63.
Import ListNotations.

Local Open Scope string_scope.

(** ** Python exceptions and results *)

Module Py.

(** The exception classes the two functions can surface, with their
    message. *)
Inductive exn : Type :=
| ValueError (msg : string)
| TypeError (msg : string)
| IndexError (msg : string)
| NotImplementedError (msg : string).

(** The outcome of a call: a returned value or a raised exception. *)
Inductive result (A : Type) : Type :=
| Ok (a : A)
| Raise (e : exn).
Arguments Ok {A} a.
Arguments Raise {A} e.

(** Sequencing: the first exception raised is the outcome. *)
Definition bind {A B : Type} (r : result A) (k : A -> result B) : result B :=
  match r with
  | Ok a => k a
  | Raise e => Raise e
  end.

(** [seq[0]]: the first element, [IndexError] on an empty sequence. *)
Definition getitem_first {A : Type} (l : list A) : result A :=
  match l with
  | a :: _ => Ok a
  | [] => Raise (IndexError "list index out of range")
  end.

(** [seq[-1]]: the last element, [IndexError] on an empty sequence. *)
Fixpoint getitem_last {A : Type} (l : list A) : result A :=
  match l with
  | [] => Raise (IndexError "list index out of range")
  | [a] => Ok a
  | _ :: l' => getitem_last l'
  end.

(** [str(n)] for an integer. *)
Definition str_of_int (n : Z) : string :=
  NilZero.string_of_int (Z.to_int n).

(** [str.lower()] on the ASCII range. *)
Definition lower_ascii (c : ascii) : ascii :=
  let n := nat_of_ascii c in
  if andb (Nat.leb 65 n) (Nat.leb n 90) then ascii_of_nat (n + 32) else c.

Fixpoint lower (s : string) : string :=
  match s with
  | EmptyString => EmptyString
  | String c s' => String (lower_ascii c) (lower s')
  end.

End Py.

Import Py.

Declare Scope py_scope.
Delimit Scope py_scope with py.
Notation "x <- c ;; k" := (bind c (fun x => k))
  (at level 61, c at next level, right associativity) : py_scope.
Local Open Scope py_scope.

(** ** numpy *)

Module np.

(** The [float64] value of a count or index (C conversion of a
    non-negative integer below [2^63]). *)
Definition float_of_Z (z : Z) : float := of_uint63 (Uint63.of_Z z).

(** [arange(0, num)] with a floating dtype. *)
Definition arange (num : Z) : list float :=
  map (fun i => float_of_Z (Z.of_nat i)) (seq 0 (Z.to_nat num)).

(** [y[-1] = v] on a non-empty array. *)
Fixpoint set_last (y : list float) (v : float) : list float :=
  match y with
  | [] => []
  | [_] => [v]
  | a :: y' => a :: set_last y' v
  end.

(** What [linspace] adds to [start] for the sample of index [v]:
    [v * step] with [step = delta / div], computed as [v / div * delta]
    when [step] is zero, and [v * delta] when there is no division to do
    ([div <= 0]). *)
Definition linspace_offset (delta : float) (div : Z) (v : float) : float :=
  if (0 <? div)%Z then
    let step := (delta / float_of_Z div)%float in
    if (step =? 0)%float then (v / float_of_Z div * delta)%float
    else (v * step)%float
  else (v * delta)%float.

(** The counts an array can have: numpy's index type is a signed 64-bit
    integer. *)
Definition max_size : Z := 9223372036854775807.

(** [numpy.linspace(start, stop, num)], with [endpoint=True]:
    [div = num - 1], [delta = stop - start]; the samples are
    [arange(0, num)] scaled and shifted by [start] and, for [num > 1], the
    last one is overwritten by [stop].  A negative count is refused by
    [linspace] itself, a count beyond the index type when [arange] is asked
    for the array (the memory a smaller array may not get is outside this
    model). *)
Definition linspace (start stop : float) (num : Z) : result (list float) :=
  if (num <? 0)%Z then
    Raise (ValueError ("Number of samples, " ++ str_of_int num
                       ++ ", must be non-negative."))
  else if (max_size <? num)%Z then
    Raise (ValueError "Maximum allowed size exceeded")
  else
    let div := (num - 1)%Z in
    let delta := (stop - start)%float in
    let y := arange num in
    let y := map (linspace_offset delta div) y in
    let y := map (fun v => (v + start)%float) y in
    Ok (if (1 <? num)%Z then set_last y stop else y).

(** The order of [numpy.sort]: [<] with NaN placed last. *)
Definition sort_lt (a b : float) : bool :=
  ((a <? b)%float || (is_nan b && negb (is_nan a)))%bool.

(** Stable insertion of a (position, value) pair by position. *)
Fixpoint insert_by_x (p : float * float) (l : list (float * float))
  : list (float * float) :=
  match l with
  | [] => [p]
  | q :: l' =>
      if sort_lt (fst q) (fst p) then q :: insert_by_x p l' else p :: l
  end.

(** [ind = argsort(x, kind="mergesort"); x[ind], take(y, ind)]: both
    arrays reordered by a stable sort of [x]. *)
Definition sort_by_x (x y : list float) : list (float * float) :=
  fold_right insert_by_x [] (combine x y).

(** [c / a] for a scalar [c] and an array [a]: elementwise true division. *)
Definition rdivide (c : float) (a : list float) : list float :=
  map (fun v => (c / v)%float) a.

End np.

(** ** The interpolation method argument *)

(** [method]: a string tag or an integer spline order. *)
Inductive method_t : Type :=
| MStr (s : string)
| MInt (k : Z).

(** ** scipy.interpolate *)

Module scipy.

(** The kernels [interp1d] knows, after its dispatch on [kind]. *)
Inductive kind_t : Type :=
| Linear
| Nearest
| NearestUp
| Previous
| Next
| Spline (order : Z).

(** The numerical routines of scipy that the two functions never look
    into: they are taken as given. *)
Record kernels : Type := {
  (** [interp1d._call]: the value of the kernel built over the sorted
      samples at one target position, before any bounds handling. *)
  interp1d_call : kind_t -> list float -> list float -> float -> float;
  (** What else the [interp1d] constructor refuses for a kernel (the
      B-spline construction can reject its samples). *)
  interp1d_reject : kind_t -> list float -> list float -> option exn;
  (** The PCHIP derivatives: one slope per sample. *)
  pchip_derivatives : list float -> list float -> list float;
  (** The PCHIP coefficients: for each interval between two breakpoints,
      the cubic's coefficients, highest degree first. *)
  pchip_coefficients : list float -> list float -> list (list float)
}.

(** [interp1d.__init__]'s dispatch on [kind]. *)
Definition kind_of_method (m : method_t) : result kind_t :=
  match m with
  | MInt k => Ok (Spline k)
  | MStr s =>
      if String.eqb s "zero" then Ok (Spline 0)
      else if String.eqb s "slinear" then Ok (Spline 1)
      else if String.eqb s "quadratic" then Ok (Spline 2)
      else if String.eqb s "cubic" then Ok (Spline 3)
      else if String.eqb s "linear" then Ok Linear
      else if String.eqb s "nearest" then Ok Nearest
      else if String.eqb s "nearest-up" then Ok NearestUp
      else if String.eqb s "previous" then Ok Previous
      else if String.eqb s "next" then Ok Next
      else Raise (NotImplementedError
                    (s ++ " is unsupported: Use fitpack routines for other types."))
  end.

(** The least number of samples a kernel needs. *)
Definition minval (k : kind_t) : Z :=
  match k with
  | Spline order => (order + 1)%Z
  | _ => 1%Z
  end.

(** An [interp1d] object built with [bounds_error=False] and a
    [(below, above)] pair as [fill_value]. *)
Record interp1d_t : Type := {
  i_kind : kind_t;
  i_x : list float;
  i_y : list float;
  fill_value_below : float;
  fill_value_above : float
}.

(** A piecewise polynomial ([PPoly]): breakpoints, one coefficient list
    per interval, and the [extrapolate] flag. *)
Record ppoly_t : Type := {
  p_c : list (list float);
  p_x : list float;
  p_extrapolate : bool
}.

(** [evaluate_poly1]: [sum_k c[k] * s^(deg - k)], accumulated from the
    constant term up. *)
Fixpoint poly_acc (rc : list float) (s z res : float) : float :=
  match rc with
  | [] => res
  | c :: rc' => poly_acc rc' s (z * s)%float (res + c * z)%float
  end.

Definition evaluate_poly1 (s : float) (c : list float) : float :=
  poly_acc (rev c) s 1%float 0%float.

(** The interval of an in-range position: the last [i <= nx - 2] with
    [x[i] <= t]. *)
Fixpoint search_interval (x : list float) (t : float) (i : nat) : nat :=
  match x with
  | _ :: ((b :: _ :: _) as x') =>
      if (b <=? t)%float then search_interval x' t (S i) else i
  | _ => i
  end.

(** [find_interval]: [None] stands for the interval [-1] (NaN, or out of
    bounds without extrapolation). *)
Definition find_interval (x : list float) (t : float) (extrapolate : bool)
  : option nat :=
  match x with
  | [] => None
  | a :: _ =>
      let b := last x a in
      if ((a <=? t)%float && (t <=? b)%float)%bool then
        if (t =? b)%float then Some (length x - 2)%nat
        else Some (search_interval x t 0)
      else if ((t <? a)%float && extrapolate)%bool then Some 0%nat
      else if ((b <? t)%float && extrapolate)%bool then Some (length x - 2)%nat
      else None
  end.

(** [PPoly.__call__] at one position. *)
Definition ppoly_eval (p : ppoly_t) (t : float) : float :=
  match find_interval (p_x p) t (p_extrapolate p) with
  | None => nan
  | Some i =>
      evaluate_poly1 (t - nth i (p_x p) nan)%float (nth i (p_c p) [])
  end.

(** [np.any(np.diff(x) <= 0)] negated. *)
Fixpoint strictly_increasing (x : list float) : bool :=
  match x with
  | a :: ((b :: _) as x') =>
      (negb (b - a <=? 0)%float && strictly_increasing x')%bool
  | _ => true
  end.

Section Constructors.

Variable K : kernels.

(** [interp1d(x, y, kind=kind, bounds_error=False,
    fill_value=([below], [above]))]: the kind is dispatched, the samples
    are sorted by position, the kernel is built and the sample count is
    checked against the kernel's minimum. *)
Definition interp1d (x y : list float) (kind : method_t)
           (below above : float) : result interp1d_t :=
  k <- kind_of_method kind ;;
  let xy := np.sort_by_x x y in
  let xs := map fst xy in
  let ys := map snd xy in
  match interp1d_reject K k xs ys with
  | Some e => Raise e
  | None =>
      if (Z.of_nat (length xs) <? minval k)%Z then
        Raise (ValueError ("x and y arrays must have at least "
                           ++ str_of_int (minval k) ++ " entries"))
      else
        Ok {| i_kind := k; i_x := xs; i_y := ys;
              fill_value_below := below; fill_value_above := above |}
  end.

(** [interp1d.__call__] at one position: the kernel's value, replaced
    by the fill values where the position is out of bounds. *)
Definition interp1d_at (f : interp1d_t) (x_first x_last t : float) : float :=
  let v := interp1d_call K (i_kind f) (i_x f) (i_y f) t in
  let v := if (t <? x_first)%float then fill_value_below f else v in
  if (x_last <? t)%float then fill_value_above f else v.

(** [interp1d.__call__(x_new)]. *)
Definition interp1d_eval (f : interp1d_t) (x_new : list float)
  : result (list float) :=
  x_first <- getitem_first (i_x f) ;;
  x_last <- getitem_last (i_x f) ;;
  Ok (map (interp1d_at f x_first x_last) x_new).

(** [PchipInterpolator(x, y, extrapolate=extrapolate)]: the samples are
    validated (two at least, finite, positions strictly increasing), the
    derivatives are computed and must be finite, and the piecewise cubic is
    built. *)
Definition PchipInterpolator (x y : list float) (extrapolate : bool)
  : result ppoly_t :=
  if (length x <? 2)%nat then
    Raise (ValueError "`x` must contain at least 2 elements.")
  else if negb (length x =? length y)%nat then
    Raise (ValueError "The length of `y` along `axis`=0 doesn't match the length of `x`")
  else if negb (forallb is_finite x) then
    Raise (ValueError "`x` must contain only finite values.")
  else if negb (forallb is_finite y) then
    Raise (ValueError "`y` must contain only finite values.")
  else if negb (strictly_increasing x) then
    Raise (ValueError "`x` must be strictly increasing sequence.")
  else if negb (forallb is_finite (pchip_derivatives K x y)) then
    Raise (ValueError "`dydx` must contain only finite values.")
  else
    Ok {| p_c := pchip_coefficients K x y; p_x := x;
          p_extrapolate := extrapolate |}.

End Constructors.

End scipy.

(** ** signal_interpolate *)

(** [x_new]: a sequence of target positions, an integer count, or the
    default [None]. *)
Inductive x_new_t : Type :=
| XNone
| XInt (n : Z)
| XSeq (positions : list float).

(** The defaults of the signature
    [signal_interpolate(x_values, y_values, x_new=None, method="quadratic")]. *)
Definition default_x_new : x_new_t := XNone.
Definition default_method : method_t := MStr "quadratic".

(** [len(x_new)]. *)
Definition len_x_new (x_new : x_new_t) : result nat :=
  match x_new with
  | XSeq positions => Ok (length positions)
  | XNone => Raise (TypeError "object of type 'NoneType' has no len()")
  | XInt _ => Raise (TypeError "object of type 'int' has no len()")
  end.

(** [isinstance(method, str) and method.lower() == "monotone_cubic"]. *)
Definition is_monotone_cubic (method : method_t) : bool :=
  match method with
  | MStr s => String.eqb (Py.lower s) "monotone_cubic"
  | MInt _ => false
  end.

(** What [interpolation_function] is bound to. *)
Inductive interpolation_function_t : Type :=
| Pchip (p : scipy.ppoly_t)
| Interp1d (f : scipy.interp1d_t).

(** The exception of the sanity check (lines 61-62). *)
Definition length_error : exn :=
  ValueError "NeuroKit error: signal_interpolate(): x_values and y_values must be of the same length.".

Section SignalInterpolate.

Variable K : scipy.kernels.

(** Lines 72-77: the interpolation function for [method]. *)
Definition create_interpolation_function
           (x_values y_values : list float) (method : method_t)
  : result interpolation_function_t :=
  if is_monotone_cubic method then
    p <- scipy.PchipInterpolator K x_values y_values true ;;
    Ok (Pchip p)
  else
    y_first <- getitem_first y_values ;;
    y_last <- getitem_last y_values ;;
    f <- scipy.interp1d K x_values y_values method y_first y_last ;;
    Ok (Interp1d f).

(** Lines 79-80: an integer [x_new] becomes
    [np.linspace(x_values[0], x_values[-1], x_new)]. *)
Definition resolve_x_new (x_values : list float) (x_new : x_new_t)
  : result (list float) :=
  match x_new with
  | XInt n =>
      x_first <- getitem_first x_values ;;
      x_last <- getitem_last x_values ;;
      np.linspace x_first x_last n
  | XSeq positions => Ok positions
  | XNone => Raise (TypeError "object of type 'NoneType' has no len()")
  end.

(** Line 82: [interpolation_function(x_new)]. *)
Definition call_interpolation_function
           (f : interpolation_function_t) (x_new : list float)
  : result (list float) :=
  match f with
  | Pchip p => Ok (map (scipy.ppoly_eval p) x_new)
  | Interp1d f => scipy.interp1d_eval K f x_new
  end.

Definition signal_interpolate
           (x_values y_values : list float) (x_new : x_new_t)
           (method : method_t) : result (list float) :=
  (* Sanity checks *)
  if negb (length x_values =? length y_values)%nat then Raise length_error
  else
    same_count <-
      match x_new with
      | XInt n =>
          (* isinstance(x_new, int) *)
          Ok (Z.of_nat (length x_values) =? n)%Z
      | _ =>
          n <- len_x_new x_new ;;
          Ok (length x_values =? n)%nat
      end ;;
    if (same_count : bool) then Ok y_values
    else
      (* Create interpolation function *)
      interpolation_function <-
        create_interpolation_function x_values y_values method ;;
      x_new <- resolve_x_new x_values x_new ;;
      call_interpolation_function interpolation_function x_new.

End SignalInterpolate.

(** The short-circuit does not fire: the count of [x_new] is not
    [len(x_values)]. *)
Definition count_differs (x_values : list float) (x_new : x_new_t) : Prop :=
  match x_new with
  | XInt n => n <> Z.of_nat (length x_values)
  | XSeq positions => length positions <> length x_values
  | XNone => False
  end.

(** ** signal_rate *)

Section SignalRate.

(** [signal_period] is imported from [.signal_period]; it is taken as
    given: from the peaks, the sampling rate, the desired length and the
    interpolation method it returns the array of periods, or raises. *)
Variable Peaks : Type.
Variable signal_period :
  Peaks -> Z -> option Z -> method_t -> result (list float).

(** The defaults of the signature [signal_rate(peaks, sampling_rate=1000,
    desired_length=None, interpolation_method="monotone_cubic")]. *)
Definition default_sampling_rate : Z := 1000.
Definition default_desired_length : option Z := None.
Definition default_interpolation_method : method_t := MStr "monotone_cubic".

Definition signal_rate (peaks : Peaks) (sampling_rate : Z)
           (desired_length : option Z) (interpolation_method : method_t)
  : result (list float) :=
  period <- signal_period peaks sampling_rate desired_length
                          interpolation_method ;;
  let rate := np.rdivide 60 period in
  Ok rate.

End SignalRate.

(** ** A concrete instance of the kernels

    A stand-in on which the model runs, not scipy's kernels: the linear
    kernel ([_call_linear]) is used for every kind, the PCHIP cubic is the
    chord (what PCHIP is on two samples), and nothing is rejected beyond the
    checks of the constructors above.  The general theorems hold for every
    instance and do not rest on this one. *)

Module LinearKernels.

(** [searchsorted(x, t)]: the number of positions below [t]. *)
Fixpoint searchsorted (x : list float) (t : float) : nat :=
  match x with
  | a :: x' => if (a <? t)%float then S (searchsorted x' t) else 0%nat
  | [] => 0%nat
  end.

Definition call_linear (x y : list float) (t : float) : float :=
  let hi := Nat.min (Nat.max (searchsorted x t) 1) (length x - 1) in
  let lo := (hi - 1)%nat in
  let x_lo := nth lo x nan in
  let x_hi := nth hi x nan in
  let y_lo := nth lo y nan in
  let y_hi := nth hi y nan in
  let slope := ((y_hi - y_lo) / (x_hi - x_lo))%float in
  (slope * (t - x_lo) + y_lo)%float.

(** The cubic through two neighbouring samples with both end derivatives
    equal to the chord's slope. *)
Fixpoint chords (x y : list float) : list (list float) :=
  match x, y with
  | a :: ((b :: _) as x'), ya :: ((yb :: _) as y') =>
      [0; 0; (yb - ya) / (b - a); ya]%float :: chords x' y'
  | _, _ => []
  end.

(** The slope of the chord at each sample: to the next sample, and for
    the last sample from the one before. *)
Fixpoint chord_slopes (x y : list float) : list float :=
  match x, y with
  | a :: ((b :: x'') as x'), ya :: ((yb :: _) as y') =>
      let slope := ((yb - ya) / (b - a))%float in
      match x'' with
      | [] => [slope; slope]
      | _ => slope :: chord_slopes x' y'
      end
  | _, _ => []
  end.

Definition kernels : scipy.kernels :=
  {| scipy.interp1d_call := fun _ => call_linear;
     scipy.interp1d_reject := fun _ _ _ => None;
     scipy.pchip_derivatives := chord_slopes;
     scipy.pchip_coefficients := chords |}.

End LinearKernels.

(** ** A stub period provider

    It hands back a fixed period array, whatever the peaks. *)
Definition stub_signal_period (period : list float)
  : list Z -> Z -> option Z -> method_t -> result (list float) :=
  fun _ _ _ _ => Ok period.

(** * The model at work *)

Section Runs.

Local Open Scope float_scope.

Example lower_mixed_case : Py.lower "Monotone_CUBIC" = "monotone_cubic".
Proof. reflexivity. Qed.

Example linspace_five_samples :
  np.linspace 0 10 5 = Ok [0; 2.5; 5; 7.5; 10].
Proof. reflexivity. Qed.

Example linspace_one_sample : np.linspace 1 2 1 = Ok [1].
Proof. reflexivity. Qed.

Example linspace_negative_count :
  np.linspace 1 2 (-3)
  = Raise (ValueError "Number of samples, -3, must be non-negative.").
Proof. reflexivity. Qed.

Example sort_by_x_is_stable :
  np.sort_by_x [3; 1; nan; 2; 1] [30; 10; 0; 20; 11]
  = [(1, 10); (1, 11); (2, 20); (3, 30); (nan, 0)].
Proof. reflexivity. Qed.

(** Samples given out of order: the bounds are the least and the greatest
    position, the fill values the first and the last value as given. *)
Example interpolate_unsorted_samples :
  signal_interpolate LinearKernels.kernels [2; 0; 1] [40; 0; 10]
                     (XSeq [-1; 0.5; 1.5; 3]) (MStr "linear")
  = Ok [40; 5; 25; 10].
Proof. reflexivity. Qed.

Example interpolate_quadratic_one_sample :
  signal_interpolate LinearKernels.kernels [0] [5] (XSeq [-1; 1])
                     default_method
  = Raise (ValueError "x and y arrays must have at least 3 entries").
Proof. reflexivity. Qed.

Example interpolate_no_samples :
  signal_interpolate LinearKernels.kernels [] [] (XSeq [1]) (MStr "linear")
  = Raise (IndexError "list index out of range").
Proof. reflexivity. Qed.

Example interpolate_negative_count :
  signal_interpolate LinearKernels.kernels [0; 1] [3; 4] (XInt (-1))
                     (MStr "linear")
  = Raise (ValueError "Number of samples, -1, must be non-negative.").
Proof. reflexivity. Qed.

Example interpolate_count_one :
  signal_interpolate LinearKernels.kernels [0; 1; 2] [0; 10; 40] (XInt 1)
                     (MStr "linear")
  = Ok [0].
Proof. reflexivity. Qed.

End Runs.

(** * Facts on floats, sequences and the library models *)

Section FloatOrder.

Lemma SFcompare_Lt_swap x y :
  SFcompare x y = Some Lt -> SFcompare y x = Some Gt.
Proof.
  destruct x as [sx | sx | | sx mx ex], y as [sy | sy | | sy my ey];
    cbn; try discriminate; try (destruct sx; discriminate);
    try (destruct sy; discriminate);
    try (destruct sx, sy; discriminate || reflexivity).
  destruct sx, sy; try discriminate; try reflexivity;
    rewrite (Z.compare_antisym ex ey);
    (destruct (ex ?= ey)%Z; cbn; try discriminate; try reflexivity);
    fold (Pos.compare mx my); fold (Pos.compare my mx);
    rewrite (Pos.compare_antisym mx my);
    destruct (mx ?= my)%positive; cbn; discriminate || reflexivity.
Qed.

(** [a < b] excludes [b < a]. *)
Lemma ltb_asym (a b : float) :
  (a <? b)%float = true -> (b <? a)%float = false.
Proof.
  rewrite !FloatAxioms.ltb_spec. unfold SFltb. intros H.
  destruct (SFcompare (Prim2SF a) (Prim2SF b)) as [[]|] eqn:E;
    try discriminate.
  now rewrite (SFcompare_Lt_swap _ _ E).
Qed.

(** [a < b] excludes [b <= a]. *)
Lemma ltb_not_leb (a b : float) :
  (a <? b)%float = true -> (b <=? a)%float = false.
Proof.
  rewrite FloatAxioms.ltb_spec, FloatAxioms.leb_spec.
  unfold SFltb, SFleb. intros H.
  destruct (SFcompare (Prim2SF a) (Prim2SF b)) as [[]|] eqn:E;
    try discriminate.
  now rewrite (SFcompare_Lt_swap _ _ E).
Qed.

Lemma Prim2SF_infinity : Prim2SF infinity = S754_infinity false.
Proof. reflexivity. Qed.


Lemma SFcompare_refl x : x <> S754_nan -> SFcompare x x = Some Eq.
Proof.
  destruct x as [s|s| |s m e]; cbn; try easy.
  - now destruct s.
  - intros _. rewrite Z.compare_refl.
    fold (Pos.compare m m). rewrite Pos.compare_refl. now destruct s.
Qed.

Lemma is_nan_Prim2SF x : is_nan x = true <-> Prim2SF x = S754_nan.
Proof.
  unfold is_nan. rewrite FloatAxioms.eqb_spec. unfold SFeqb.
  destruct (Prim2SF x) as [s|s| |s m e] eqn:E.
  - cbn. split; discriminate.
  - rewrite SFcompare_refl by discriminate. split; discriminate.
  - cbn. split; reflexivity.
  - rewrite SFcompare_refl by discriminate. split; discriminate.
Qed.



End FloatOrder.

Section Sequences.

Context {A : Type}.

Lemma getitem_first_In (l : list A) a : getitem_first l = Ok a -> In a l.
Proof.
  destruct l as [|b l]; cbn; [discriminate|].
  intros [= ->]. now left.
Qed.

Lemma getitem_last_In (l : list A) a : getitem_last l = Ok a -> In a l.
Proof.
  induction l as [|b l IH]; cbn; [discriminate|].
  destruct l as [|c l].
  - intros [= ->]. now left.
  - intros H. right. now apply IH.
Qed.

Lemma getitem_first_Ok (l : list A) :
  l <> [] -> exists a, getitem_first l = Ok a.
Proof. destruct l as [|a l]; [easy|]. intros _. now exists a. Qed.

Lemma getitem_last_Ok (l : list A) :
  l <> [] -> exists a, getitem_last l = Ok a.
Proof.
  induction l as [|b l IH]; [easy|]. intros _.
  destruct l as [|c l].
  - now exists b.
  - destruct IH as [a Ha]; [easy|]. exists a. exact Ha.
Qed.

Lemma getitem_first_nonempty (l : list A) a :
  getitem_first l = Ok a -> l <> [].
Proof. destruct l; cbn; [discriminate | easy]. Qed.

End Sequences.

Section SortFacts.

Lemma In_insert_by_x p q l :
  In p (np.insert_by_x q l) -> p = q \/ In p l.
Proof.
  induction l as [|r l IH]; cbn.
  - intros [<- | []]. now left.
  - destruct (np.sort_lt (fst r) (fst q)); cbn.
    + intros [<- | H]; [right; now left|].
      destruct (IH H) as [-> | H']; [now left | right; now right].
    + intros [<- | H]; [now left | now right].
Qed.

Lemma length_insert_by_x q l :
  length (np.insert_by_x q l) = S (length l).
Proof.
  induction l as [|r l IH]; cbn; [reflexivity|].
  destruct (np.sort_lt (fst r) (fst q)); cbn; now rewrite ?IH.
Qed.

Lemma In_sort_by_x p x y :
  In p (np.sort_by_x x y) -> In p (combine x y).
Proof.
  unfold np.sort_by_x. induction (combine x y) as [|q l IH]; cbn; [easy|].
  intros H. destruct (In_insert_by_x _ _ _ H) as [-> | H'].
  - now left.
  - right. now apply IH.
Qed.

Lemma length_sort_by_x x y :
  length (np.sort_by_x x y) = length (combine x y).
Proof.
  unfold np.sort_by_x. induction (combine x y) as [|q l IH]; cbn; [easy|].
  now rewrite length_insert_by_x, IH.
Qed.

(** The sorted positions are positions of the input. *)
Lemma sorted_positions_In a x y :
  In a (map fst (np.sort_by_x x y)) -> In a x.
Proof.
  intros H. apply in_map_iff in H as [[a' b] [<- H]].
  apply In_sort_by_x in H. now apply in_combine_l in H.
Qed.

Lemma sorted_positions_length x y :
  length x = length y -> length (map fst (np.sort_by_x x y)) = length x.
Proof.
  intros H. rewrite length_map, length_sort_by_x, length_combine. lia.
Qed.

End SortFacts.

Section LinspaceFacts.

Lemma length_arange num : length (np.arange num) = Z.to_nat num.
Proof. unfold np.arange. now rewrite length_map, length_seq. Qed.

Lemma nth_error_arange num i :
  (i < Z.to_nat num)%nat ->
  nth_error (np.arange num) i = Some (np.float_of_Z (Z.of_nat i)).
Proof.
  intros Hi. unfold np.arange.
  rewrite nth_error_map, nth_error_seq.
  apply Nat.ltb_lt in Hi. now rewrite Hi.
Qed.

Lemma length_set_last y v : length (np.set_last y v) = length y.
Proof.
  induction y as [|a y IH]; [reflexivity|].
  destruct y as [|b y]; [reflexivity|].
  cbn [np.set_last length] in *. now rewrite IH.
Qed.

Lemma getitem_last_set_last y v :
  y <> [] -> getitem_last (np.set_last y v) = Ok v.
Proof.
  induction y as [|a y IH]; [easy|]. intros _.
  destruct y as [|b y]; [reflexivity|].
  change (np.set_last (a :: b :: y) v) with (a :: np.set_last (b :: y) v).
  assert (Hne : np.set_last (b :: y) v <> []).
  { intros Hnil. apply (f_equal (@length _)) in Hnil.
    rewrite length_set_last in Hnil. discriminate. }
  destruct (np.set_last (b :: y) v) as [|c l] eqn:E; [easy|].
  change (getitem_last (a :: c :: l)) with (getitem_last (c :: l)).
  now apply IH.
Qed.

Lemma nth_error_set_last y v i :
  (S i < length y)%nat ->
  nth_error (np.set_last y v) i = nth_error y i.
Proof.
  revert i. induction y as [|a y IH]; intros i Hi; [reflexivity|].
  destruct y as [|b y]; [cbn in Hi; lia|].
  change (np.set_last (a :: b :: y) v) with (a :: np.set_last (b :: y) v).
  destruct i as [|i]; [reflexivity|].
  cbn [nth_error]. apply IH. cbn in *. lia.
Qed.

(** For a count from 0 to [max_size] [linspace] returns that many samples; all but
    the last are [start] plus the offset of their index, and from two
    samples on the last one is [stop] itself. *)
Lemma linspace_Ok start stop num :
  (0 <= num <= np.max_size)%Z ->
  exists grid,
    np.linspace start stop num = Ok grid
    /\ Z.of_nat (length grid) = num
    /\ (forall i,
          (Z.of_nat i < Z.max 1 (num - 1))%Z -> (Z.of_nat i < num)%Z ->
          nth_error grid i
          = Some (np.linspace_offset (stop - start) (num - 1)
                                     (np.float_of_Z (Z.of_nat i))
                  + start)%float)
    /\ ((2 <= num)%Z -> getitem_last grid = Ok stop).
Proof.
  intros Hnum. unfold np.linspace.
  assert (Hneg : (num <? 0)%Z = false) by (apply Z.ltb_ge; lia).
  assert (Hbig : (np.max_size <? num)%Z = false) by (apply Z.ltb_ge; lia).
  rewrite Hneg, Hbig. eexists. split; [reflexivity|].
  set (y := map _ (map _ (np.arange num))).
  assert (Hy : length y = Z.to_nat num)
    by (unfold y; now rewrite !length_map, length_arange).
  assert (Hnth : forall i, (i < Z.to_nat num)%nat ->
            nth_error y i
            = Some (np.linspace_offset (stop - start) (num - 1)
                      (np.float_of_Z (Z.of_nat i)) + start)%float).
  { intros i Hi. unfold y.
    now rewrite !nth_error_map, nth_error_arange. }
  destruct (1 <? num)%Z eqn:Hone.
  - apply Z.ltb_lt in Hone. rewrite length_set_last, Hy.
    split; [lia|split].
    + intros i Hi _. rewrite nth_error_set_last by lia. apply Hnth. lia.
    + intros _. apply getitem_last_set_last.
      intros Hnil. rewrite Hnil in Hy. cbn in Hy. lia.
  - apply Z.ltb_ge in Hone. rewrite Hy. split; [lia|split].
    + intros i _ Hi. apply Hnth. lia.
    + lia.
Qed.


End LinspaceFacts.

(** * Facts on binary64 rounding and division *)

Section Rounding.

Local Open Scope Z_scope.

(** The exponent function of binary64. *)
Lemma fexp_64 e : fexp prec emax e = Z.max (e - 53) (-1074).
Proof. reflexivity. Qed.

Lemma digits2_pos_bounds p :
  2 ^ (Zpos (digits2_pos p) - 1) <= Zpos p < 2 ^ Zpos (digits2_pos p).
Proof.
  induction p as [p IH | p IH |]; cbn [digits2_pos].
  - rewrite Pos2Z.inj_succ.
    replace (Z.succ (Zpos (digits2_pos p)) - 1) with (Z.succ (Zpos (digits2_pos p) - 1)) by lia.
    rewrite !Z.pow_succ_r by lia. lia.
  - rewrite Pos2Z.inj_succ.
    replace (Z.succ (Zpos (digits2_pos p)) - 1) with (Z.succ (Zpos (digits2_pos p) - 1)) by lia.
    rewrite !Z.pow_succ_r by lia. lia.
  - cbn. lia.
Qed.

Lemma Zdigits2_bounds m :
  0 < m -> 2 ^ (Zdigits2 m - 1) <= m < 2 ^ Zdigits2 m.
Proof.
  destruct m as [|p|p]; try lia. intros _. apply digits2_pos_bounds.
Qed.

Lemma Zdigits2_pos m : 0 < m -> 0 < Zdigits2 m.
Proof. destruct m; cbn; lia. Qed.

(** A number that reaches [2^(k-1)] has at least [k] digits. *)
Lemma Zdigits2_ge m k : 0 < m -> 2 ^ (k - 1) <= m -> k <= Zdigits2 m.
Proof.
  intros Hm Hk. destruct (Zdigits2_bounds m Hm) as [_ Hlt].
  destruct (Z.le_gt_cases k (Zdigits2 m)) as [|Hgt]; [assumption|].
  assert (2 ^ Zdigits2 m <= 2 ^ (k - 1)) by (apply Z.pow_le_mono_r; lia).
  lia.
Qed.

Lemma shr_1_m mrs : 0 <= shr_m mrs -> shr_m (shr_1 mrs) = shr_m mrs / 2.
Proof.
  destruct mrs as [m r s]. cbn [shr_m]. intros Hm.
  destruct m as [|[p|p|]|p]; cbn [shr_1 shr_m]; try lia.
  - reflexivity.
  - apply Z.div_unique with (r := 1); lia.
  - apply Z.div_unique with (r := 0); lia.
  - reflexivity.
Qed.

Lemma iter_pos_shr_1 p : forall mrs,
  0 <= shr_m mrs ->
  shr_m (iter_pos shr_1 p mrs) = shr_m mrs / 2 ^ Zpos p.
Proof.
  induction p as [p IH | p IH |]; intros mrs Hm; cbn [iter_pos].
  - assert (H1 : 0 <= shr_m (shr_1 mrs)).
    { rewrite shr_1_m by assumption. apply Z.div_pos; lia. }
    assert (H2 : 0 <= shr_m (iter_pos shr_1 p (shr_1 mrs))).
    { rewrite IH by assumption. apply Z.div_pos; lia. }
    rewrite IH, IH, shr_1_m by assumption.
    rewrite !Z.div_div by lia. f_equal.
    rewrite Pos2Z.inj_xI, Z.pow_add_r, Z.pow_mul_r by lia.
    change (2 ^ 2) with 4. change (2 ^ 1) with 2.
    replace (4 ^ Zpos p) with (2 ^ Zpos p * 2 ^ Zpos p); [lia|].
    rewrite <- Z.pow_add_r by lia. replace (Zpos p + Zpos p) with (2 * Zpos p) by lia.
    now rewrite Z.pow_mul_r by lia.
  - assert (H2 : 0 <= shr_m (iter_pos shr_1 p mrs)).
    { rewrite IH by assumption. apply Z.div_pos; lia. }
    rewrite IH, IH by assumption.
    rewrite !Z.div_div by lia. f_equal.
    rewrite Pos2Z.inj_xO, <- Z.pow_add_r by lia. f_equal. lia.
  - rewrite shr_1_m by assumption. reflexivity.
Qed.

Lemma shr_m_of_loc m l : shr_m (shr_record_of_loc m l) = m.
Proof. destruct l as [|[]]; reflexivity. Qed.

(** Shifting to the format's exponent keeps a positive mantissa positive
    when the number lies above the smallest subnormal, and does not lower
    its magnitude. *)
Lemma shr_fexp_positive m e l :
  0 < m -> -1074 < Zdigits2 m + e ->
  0 < shr_m (fst (shr_fexp prec emax m e l))
  /\ Zdigits2 m + e
     <= Zdigits2 (shr_m (fst (shr_fexp prec emax m e l)))
        + snd (shr_fexp prec emax m e l).
Proof.
  intros Hm Hmag. unfold shr_fexp, shr. rewrite fexp_64.
  destruct (Zdigits2_bounds m Hm) as [Hlo Hhi].
  pose proof (Zdigits2_pos m Hm) as Hd.
  destruct (Z.max (Zdigits2 m + e - 53) (-1074) - e) as [|n|n] eqn:En;
    cbn [fst snd]; rewrite ?shr_m_of_loc; try lia.
  rewrite iter_pos_shr_1 by (rewrite shr_m_of_loc; lia).
  rewrite shr_m_of_loc.
  assert (Hn : Zpos n < Zdigits2 m) by lia.
  assert (Hq : 2 ^ (Zdigits2 m - 1 - Zpos n) <= m / 2 ^ Zpos n).
  { apply Z.div_le_lower_bound; [lia|].
    rewrite <- Z.pow_add_r by lia.
    replace (Zpos n + (Zdigits2 m - 1 - Zpos n)) with (Zdigits2 m - 1) by lia.
    exact Hlo. }
  assert (Hpos : 0 < m / 2 ^ Zpos n).
  { assert (0 < 2 ^ (Zdigits2 m - 1 - Zpos n)) by (apply Z.pow_pos_nonneg; lia).
    lia. }
  split; [exact Hpos|].
  assert (Zdigits2 m - Zpos n <= Zdigits2 (m / 2 ^ Zpos n)).
  { apply Zdigits2_ge; [exact Hpos|].
    replace (Zdigits2 m - Zpos n - 1) with (Zdigits2 m - 1 - Zpos n) by lia.
    exact Hq. }
  lia.
Qed.

Lemma Zdigits2_mono m n : 0 < m -> m <= n -> Zdigits2 m <= Zdigits2 n.
Proof.
  intros Hm Hmn. apply Zdigits2_ge; [lia|].
  destruct (Zdigits2_bounds m Hm). lia.
Qed.

Lemma round_nearest_even_ge m l : m <= round_nearest_even m l.
Proof.
  destruct l as [|[]]; cbn; try lia. destruct (Z.even m); lia.
Qed.

(** Rounding a positive mantissa above the smallest subnormal gives a
    non-zero number or an infinity, of the sign asked for. *)
Lemma binary_round_aux_signed sx m e l :
  0 < m -> -1074 < Zdigits2 m + e ->
  (exists m' e', binary_round_aux prec emax sx m e l = S754_finite sx m' e')
  \/ binary_round_aux prec emax sx m e l = S754_infinity sx.
Proof.
  intros Hm Hmag. unfold binary_round_aux.
  destruct (shr_fexp_positive m e l Hm Hmag) as [H1 H1'].
  destruct (shr_fexp prec emax m e l) as [mrs' e'] eqn:E1. cbn [fst snd] in *.
  set (m2 := round_nearest_even (shr_m mrs') (loc_of_shr_record mrs')).
  assert (Hge : shr_m mrs' <= m2) by apply round_nearest_even_ge.
  assert (Hm2 : 0 < m2) by lia.
  assert (Hmag2 : -1074 < Zdigits2 m2 + e').
  { pose proof (Zdigits2_mono _ _ H1 Hge). lia. }
  destruct (shr_fexp_positive m2 e' loc_Exact Hm2 Hmag2) as [H2 _].
  destruct (shr_fexp prec emax m2 e' loc_Exact) as [mrs'' e''] eqn:E2.
  cbn [fst snd] in *.
  destruct (shr_m mrs'') as [|p|p]; try lia.
  destruct (e'' <=? emax - prec); [left; eauto | right; reflexivity].
Qed.

(** The quotient mantissa of a division is positive and above the
    smallest subnormal when the operands' magnitudes are not too far
    apart. *)
Lemma SFdiv_core_binary_positive m1 e1 m2 e2 :
  -1073 <= Zpos (digits2_pos m1) + e1 - (Zpos (digits2_pos m2) + e2) ->
  0 < fst (fst (SFdiv_core_binary prec emax (Zpos m1) e1 (Zpos m2) e2))
  /\ -1074 < Zdigits2 (fst (fst (SFdiv_core_binary prec emax (Zpos m1) e1 (Zpos m2) e2)))
             + snd (fst (SFdiv_core_binary prec emax (Zpos m1) e1 (Zpos m2) e2)).
Proof.
  intros Hmag. unfold SFdiv_core_binary. rewrite fexp_64.
  cbn [Zdigits2].
  set (d1 := Zpos (digits2_pos m1)) in *.
  set (d2 := Zpos (digits2_pos m2)) in *.
  set (e' := Z.min (Z.max (d1 + e1 - (d2 + e2) - 53) (-1074)) (e1 - e2)).
  set (s := e1 - e2 - e').
  assert (Hs : 0 <= s) by (unfold s, e'; lia).
  assert (Hs' : d2 - d1 + 1 <= s) by (unfold s, e'; lia).
  destruct (digits2_pos_bounds m1) as [Hlo1 _]. fold d1 in Hlo1.
  destruct (digits2_pos_bounds m2) as [_ Hhi2]. fold d2 in Hhi2.
  set (m' := match s with Z0 => Zpos m1 | Zpos _ => Z.shiftl (Zpos m1) s | Zneg _ => 0 end).
  assert (Hm' : m' = Zpos m1 * 2 ^ s).
  { unfold m'. destruct s as [|n|n] eqn:Es; try lia.
    now rewrite Z.shiftl_mul_pow2 by lia. }
  pose proof (Z_div_mod m' (Zpos m2) ltac:(lia)) as Hdm.
  destruct (Z.div_eucl m' (Zpos m2)) as [q r]. cbn [fst snd].
  destruct Hdm as [Hq Hr].
  assert (Hd1 : 0 < d1) by (unfold d1; lia).
  assert (Hd2 : 0 < d2) by (unfold d2; lia).
  assert (Hk : 0 <= d1 - 1 + s - d2) by lia.
  assert (Hpow : 2 ^ d2 * 2 ^ (d1 - 1 + s - d2) = 2 ^ (d1 - 1) * 2 ^ s).
  { rewrite <- !Z.pow_add_r by lia. f_equal. lia. }
  assert (Hps : 0 < 2 ^ s) by (apply Z.pow_pos_nonneg; lia).
  assert (Hpk : 0 < 2 ^ (d1 - 1 + s - d2)) by (apply Z.pow_pos_nonneg; lia).
  assert (Hqlo : 2 ^ (d1 - 1 + s - d2) <= q).
  { destruct (Z.le_gt_cases (2 ^ (d1 - 1 + s - d2)) q) as [|Hlt]; [assumption|].
    exfalso.
    assert (q + 1 <= 2 ^ (d1 - 1 + s - d2)) by lia.
    assert (Zpos m2 * (q + 1) <= Zpos m2 * 2 ^ (d1 - 1 + s - d2))
      by (apply Z.mul_le_mono_nonneg_l; lia).
    assert (Zpos m2 * 2 ^ (d1 - 1 + s - d2) <= 2 ^ d2 * 2 ^ (d1 - 1 + s - d2))
      by (apply Z.mul_le_mono_nonneg_r; lia).
    assert (2 ^ (d1 - 1) * 2 ^ s <= Zpos m1 * 2 ^ s)
      by (apply Z.mul_le_mono_nonneg_r; lia).
    lia. }
  split; [lia|].
  assert (d1 + s - d2 <= Zdigits2 q).
  { apply Zdigits2_ge; [lia|].
    replace (d1 + s - d2 - 1) with (d1 - 1 + s - d2) by lia. exact Hqlo. }
  unfold s in *. lia.
Qed.

(** A valid finite float has at most 53 digits and an exponent of at most
    971. *)
Lemma bounded_64 m e :
  bounded prec emax m e = true ->
  Zpos (digits2_pos m) <= 53 /\ e <= 971.
Proof.
  unfold bounded, canonical_mantissa. rewrite fexp_64.
  intros H. apply andb_true_iff in H as [Hc He].
  apply Z.eqb_eq in Hc. apply Z.leb_le in He.
  change (emax - prec) with 971 in He. lia.
Qed.

Lemma Prim2SF_60 :
  Prim2SF 60 = S754_finite false 8444249301319680 (-47).
Proof. reflexivity. Qed.

(** [60 / p] for a finite non-zero [p] is a non-zero number or an infinity
    of the sign of [p]. *)
Lemma SFdiv_60_finite s m e :
  bounded prec emax m e = true ->
  (exists m' e',
      SF64div (Prim2SF 60) (S754_finite s m e) = S754_finite s m' e')
  \/ SF64div (Prim2SF 60) (S754_finite s m e) = S754_infinity s.
Proof.
  intros Hb. destruct (bounded_64 m e Hb) as [Hd He].
  rewrite Prim2SF_60. unfold SF64div, SFdiv.
  assert (Hmag : -1073 <= Zpos (digits2_pos 8444249301319680) + -47
                          - (Zpos (digits2_pos m) + e)).
  { change (Zpos (digits2_pos 8444249301319680)) with 53. lia. }
  destruct (SFdiv_core_binary_positive _ _ _ _ Hmag) as [Hq Hqm].
  destruct (SFdiv_core_binary prec emax 8444249301319680 (-47) (Zpos m) e)
    as [[q e'] l].
  cbn [fst snd] in *. cbn [xorb].
  exact (binary_round_aux_signed s q e' l Hq Hqm).
Qed.

End Rounding.

Section DivisionBy.

Local Open Scope float_scope.

(** A zero period gives an infinite rate. *)
Lemma div_60_zero p :
  (p =? 0) = true -> is_infinity (60 / p) = true.
Proof.
  rewrite FloatAxioms.eqb_spec. unfold SFeqb. intros H.
  assert (Hp : p = 0 \/ p = (-0)).
  { rewrite <- (SF2Prim_Prim2SF p).
    destruct (Prim2SF p) as [[]|[]| |[] m e]; cbn in H; try discriminate;
      [right | left]; reflexivity. }
  destruct Hp as [-> | ->]; reflexivity.
Qed.

(** A negative period gives a negative rate, or the negative zero when
    the period is minus infinity. *)
Lemma div_60_negative p :
  (p <? 0) = true ->
  (60 / p <? 0) = true \/ (p = neg_infinity /\ 60 / p = (-0)).
Proof.
  rewrite !FloatAxioms.ltb_spec, FloatAxioms.div_spec. unfold SFltb.
  intros H.
  pose proof (Prim2SF_valid p) as Hv.
  pose proof (SF2Prim_Prim2SF p) as Hp.
  pose proof (SF2Prim_Prim2SF (60 / p)) as Hr.
  rewrite FloatAxioms.div_spec in Hr.
  change (Prim2SF 0) with (S754_zero false) in *.
  destruct (Prim2SF p) as [[]|[]| |[] m e]; cbn in H; try discriminate.
  - right. split; [now rewrite <- Hp | now rewrite <- Hr].
  - left. cbn [valid_binary] in Hv.
    destruct (SFdiv_60_finite true m e Hv) as [(m' & e' & ->) | ->];
      reflexivity.
Qed.


End DivisionBy.

(** * Properties of [signal_interpolate] *)

Section SignalInterpolateFacts.

Variable K : scipy.kernels.

(** The function up to the short-circuit, once the lengths agree. *)
Lemma signal_interpolate_same_length x_values y_values x_new method :
  length x_values = length y_values ->
  signal_interpolate K x_values y_values x_new method =
  (same_count <-
     match x_new with
     | XInt n => Ok (Z.of_nat (length x_values) =? n)%Z
     | _ => n <- len_x_new x_new ;; Ok (length x_values =? n)%nat
     end ;;
   if (same_count : bool) then Ok y_values
   else
     interpolation_function <-
       create_interpolation_function K x_values y_values method ;;
     x_new <- resolve_x_new x_values x_new ;;
     call_interpolation_function K interpolation_function x_new).
Proof.
  intros Hlen. unfold signal_interpolate.
  now rewrite Hlen, Nat.eqb_refl.
Qed.

Lemma short_circuit_int x_values y_values method :
  length x_values = length y_values ->
  signal_interpolate K x_values y_values
                     (XInt (Z.of_nat (length x_values))) method
  = Ok y_values.
Proof.
  intros Hlen. rewrite signal_interpolate_same_length by assumption.
  cbn. now rewrite Z.eqb_refl.
Qed.

Lemma short_circuit_seq x_values y_values positions method :
  length x_values = length y_values ->
  length positions = length x_values ->
  signal_interpolate K x_values y_values (XSeq positions) method
  = Ok y_values.
Proof.
  intros Hlen Hcount. rewrite signal_interpolate_same_length by assumption.
  cbn. now rewrite Hcount, Nat.eqb_refl.
Qed.

(** C1. For equal-length [x_values] and [y_values], a target whose count
    equals [len(x_values)] - the integer [len(x_values)], or any sequence of
    that many positions, whatever the positions are - makes
    [signal_interpolate] return [y_values] unchanged, for every method. *)
Theorem identity_short_circuit x_values y_values method :
  length x_values = length y_values ->
  signal_interpolate K x_values y_values
                     (XInt (Z.of_nat (length x_values))) method
  = Ok y_values
  /\ forall positions,
      length positions = length x_values ->
      signal_interpolate K x_values y_values (XSeq positions) method
      = Ok y_values.
Proof.
  intros Hlen. split.
  - now apply short_circuit_int.
  - intros positions Hcount. now apply short_circuit_seq.
Qed.

(** C2. For [x_values] and [y_values] of different lengths
    [signal_interpolate] raises the length error, whatever [x_new] (the
    default [None] included) and [method] are: the check comes first. *)
Theorem length_mismatch_raises x_values y_values x_new method :
  length x_values <> length y_values ->
  signal_interpolate K x_values y_values x_new method = Raise length_error.
Proof.
  intros Hlen. unfold signal_interpolate.
  apply Nat.eqb_neq in Hlen. now rewrite Hlen.
Qed.

(** C9. When the short-circuit fires, no exception is raised, whatever the
    method: [y_values] is returned although the interpolation function for
    that method may be impossible to create. *)
Theorem short_circuit_never_raises x_values y_values x_new method :
  length x_values = length y_values ->
  x_new = XInt (Z.of_nat (length x_values))
  \/ (exists positions,
        x_new = XSeq positions /\ length positions = length x_values) ->
  signal_interpolate K x_values y_values x_new method = Ok y_values
  /\ (forall e, signal_interpolate K x_values y_values x_new method <> Raise e)
  /\ (forall e,
        create_interpolation_function K x_values y_values method = Raise e ->
        signal_interpolate K x_values y_values x_new method = Ok y_values).
Proof.
  intros Hlen Hcount.
  assert (Hok : signal_interpolate K x_values y_values x_new method
                = Ok y_values).
  { destruct Hcount as [-> | [positions [-> Hcount]]].
    - now apply short_circuit_int.
    - now apply short_circuit_seq. }
  repeat split; auto.
  intros e He. rewrite Hok in He. discriminate.
Qed.

(** C10. With equal-length inputs and [x_new] left at its default [None],
    [signal_interpolate] fails with the [TypeError] of [len(None)]; so the
    default is never a valid target: every call with it raises. *)
Theorem default_x_new_raises_TypeError x_values y_values method :
  (length x_values = length y_values ->
   signal_interpolate K x_values y_values default_x_new method
   = Raise (TypeError "object of type 'NoneType' has no len()"))
  /\ exists e,
      signal_interpolate K x_values y_values default_x_new method = Raise e.
Proof.
  assert (Hequal : length x_values = length y_values ->
                   signal_interpolate K x_values y_values default_x_new method
                   = Raise (TypeError "object of type 'NoneType' has no len()")).
  { intros Hlen. rewrite signal_interpolate_same_length by assumption.
    reflexivity. }
  split; [exact Hequal|].
  destruct (Nat.eq_dec (length x_values) (length y_values)) as [Hlen|Hlen].
  - eexists. now apply Hequal.
  - exists length_error. unfold signal_interpolate.
    apply Nat.eqb_neq in Hlen. now rewrite Hlen.
Qed.

(** What a successful [interp1d] construction returns. *)
Lemma interp1d_Ok x y kind below above f :
  scipy.interp1d K x y kind below above = Ok f ->
  scipy.i_x f = map fst (np.sort_by_x x y)
  /\ scipy.fill_value_below f = below
  /\ scipy.fill_value_above f = above.
Proof.
  unfold scipy.interp1d.
  destruct (scipy.kind_of_method kind) as [k|e]; cbn; [|discriminate].
  destruct (scipy.interp1d_reject K k _ _); [discriminate|].
  destruct (_ <? _)%Z; [discriminate|].
  intros [= <-]. cbn. auto.
Qed.

(** With an explicit sequence of another count, the function creates the
    interpolation function and calls it on the sequence. *)
Lemma signal_interpolate_seq x_values y_values positions method :
  length x_values = length y_values ->
  length positions <> length x_values ->
  signal_interpolate K x_values y_values (XSeq positions) method =
  (interpolation_function <-
     create_interpolation_function K x_values y_values method ;;
   call_interpolation_function K interpolation_function positions).
Proof.
  intros Hlen Hcount. rewrite signal_interpolate_same_length by assumption.
  cbn. assert (Hneq : (length x_values =? length positions)%nat = false)
    by (apply Nat.eqb_neq; congruence).
  rewrite Hneq. reflexivity.
Qed.

(** Past the short-circuit the function creates the interpolation
    function, resolves the targets and calls it. *)
Lemma signal_interpolate_interpolates x_values y_values x_new method :
  length x_values = length y_values ->
  count_differs x_values x_new ->
  signal_interpolate K x_values y_values x_new method =
  (interpolation_function <-
     create_interpolation_function K x_values y_values method ;;
   x_new <- resolve_x_new x_values x_new ;;
   call_interpolation_function K interpolation_function x_new).
Proof.
  intros Hlen Hcount. rewrite signal_interpolate_same_length by assumption.
  destruct x_new as [|n|positions]; cbn in *.
  - contradiction.
  - assert (Hneq : (Z.of_nat (length x_values) =? n)%Z = false)
      by (apply Z.eqb_neq; congruence).
    now rewrite Hneq.
  - assert (Hneq : (length x_values =? length positions)%nat = false)
      by (apply Nat.eqb_neq; congruence).
    now rewrite Hneq.
Qed.

(** C8. When the short-circuit does not fire and the constructor of the
    interpolation function raises - [PchipInterpolator] for monotone-cubic,
    [interp1d] with its fill values for any other method - then
    [signal_interpolate] raises that very exception. *)
Theorem construction_error_propagates x_values y_values x_new method e :
  length x_values = length y_values ->
  count_differs x_values x_new ->
  (is_monotone_cubic method = true ->
   scipy.PchipInterpolator K x_values y_values true = Raise e ->
   signal_interpolate K x_values y_values x_new method = Raise e)
  /\ (is_monotone_cubic method = false ->
      forall y_first y_last,
        getitem_first y_values = Ok y_first ->
        getitem_last y_values = Ok y_last ->
        scipy.interp1d K x_values y_values method y_first y_last = Raise e ->
        signal_interpolate K x_values y_values x_new method = Raise e).
Proof.
  intros Hlen Hcount.
  rewrite signal_interpolate_interpolates by assumption.
  unfold create_interpolation_function. split.
  - intros -> Hraise. now rewrite Hraise.
  - intros -> y_first y_last Hfirst Hlast Hraise.
    now rewrite Hfirst, Hlast; cbn; rewrite Hraise.
Qed.

(** Once [interp1d] is created, the call on an explicit sequence of
    another count returns one value per target, with the two fill values
    at the targets out of bounds. *)
Lemma flat_extrapolation_created x_values y_values positions method f :
  length x_values = length y_values ->
  length positions <> length x_values ->
  is_monotone_cubic method = false ->
  create_interpolation_function K x_values y_values method = Ok f ->
  exists interpolated y_first y_last,
    signal_interpolate K x_values y_values (XSeq positions) method
    = Ok interpolated
    /\ length interpolated = length positions
    /\ getitem_first y_values = Ok y_first
    /\ getitem_last y_values = Ok y_last
    /\ forall i t,
        nth_error positions i = Some t ->
        (Forall (fun x => (t <? x)%float = true) x_values ->
         nth_error interpolated i = Some y_first)
        /\ (Forall (fun x => (x <? t)%float = true) x_values ->
            nth_error interpolated i = Some y_last).
Proof.
  intros Hlen Hcount Hmethod Hcreate.
  rewrite signal_interpolate_seq, Hcreate by assumption. cbn.
  unfold create_interpolation_function in Hcreate.
  rewrite Hmethod in Hcreate.
  destruct (getitem_first y_values) as [y_first|] eqn:Hy0; [|discriminate].
  destruct (getitem_last y_values) as [y_last|] eqn:Hy1; [|discriminate].
  cbn in Hcreate.
  destruct (scipy.interp1d K x_values y_values method y_first y_last)
    as [g|] eqn:Hg; [|discriminate].
  injection Hcreate as <-. cbn.
  destruct (interp1d_Ok _ _ _ _ _ _ Hg) as (Hx & Hbelow & Habove).
  assert (Hsorted : scipy.i_x g <> []).
  { intros Hnil. apply getitem_first_nonempty in Hy0.
    apply (f_equal (@length _)) in Hnil.
    rewrite Hx, sorted_positions_length in Hnil by assumption.
    destruct x_values, y_values; cbn in *; congruence. }
  destruct (getitem_first_Ok _ Hsorted) as [x_first Hfirst].
  destruct (getitem_last_Ok _ Hsorted) as [x_last Hlast].
  unfold scipy.interp1d_eval. rewrite Hfirst, Hlast. cbn.
  exists (map (scipy.interp1d_at K g x_first x_last) positions),
    y_first, y_last.
  repeat split; [apply length_map | |].
  - intros Hall. rewrite nth_error_map, H. cbn. f_equal.
    apply getitem_first_In in Hfirst. apply getitem_last_In in Hlast.
    rewrite Hx in Hfirst, Hlast.
    apply sorted_positions_In in Hfirst, Hlast.
    rewrite Forall_forall in Hall.
    unfold scipy.interp1d_at.
    rewrite (ltb_asym _ _ (Hall _ Hlast)), (Hall _ Hfirst).
    exact Hbelow.
  - intros Hall. rewrite nth_error_map, H. cbn. f_equal.
    apply getitem_last_In in Hlast. rewrite Hx in Hlast.
    apply sorted_positions_In in Hlast.
    rewrite Forall_forall in Hall.
    unfold scipy.interp1d_at. rewrite (Hall _ Hlast). exact Habove.
Qed.

(** C3. For equal-length inputs, a method other than monotone-cubic and an
    explicit target sequence of another count: in whatever
    [signal_interpolate] returns, there is one value per target, every target
    below all of [x_values] (below their minimum) has exactly
    [y_values[0]], and every target above all of [x_values] exactly
    [y_values[-1]]; and it does return whenever the interpolation function
    for the method can be created. *)
Theorem flat_extrapolation x_values y_values positions method :
  length x_values = length y_values ->
  length positions <> length x_values ->
  is_monotone_cubic method = false ->
  (forall interpolated,
      signal_interpolate K x_values y_values (XSeq positions) method
      = Ok interpolated ->
      exists y_first y_last,
        getitem_first y_values = Ok y_first
        /\ getitem_last y_values = Ok y_last
        /\ length interpolated = length positions
        /\ forall i t,
            nth_error positions i = Some t ->
            (Forall (fun x => (t <? x)%float = true) x_values ->
             nth_error interpolated i = Some y_first)
            /\ (Forall (fun x => (x <? t)%float = true) x_values ->
                nth_error interpolated i = Some y_last))
  /\ (forall f,
        create_interpolation_function K x_values y_values method = Ok f ->
        exists interpolated,
          signal_interpolate K x_values y_values (XSeq positions) method
          = Ok interpolated).
Proof.
  intros Hlen Hcount Hmethod. split.
  - intros interpolated Hout.
    destruct (create_interpolation_function K x_values y_values method)
      as [f|e] eqn:Hcreate.
    + destruct (flat_extrapolation_created
                  _ _ _ _ _ Hlen Hcount Hmethod Hcreate)
        as (out & y_first & y_last & Hout' & Hsize & Hy0 & Hy1 & Hpoints).
      rewrite Hout in Hout'. injection Hout' as <-.
      exists y_first, y_last. auto.
    + rewrite signal_interpolate_seq, Hcreate in Hout by assumption.
      discriminate.
  - intros f Hcreate.
    destruct (flat_extrapolation_created
                _ _ _ _ _ Hlen Hcount Hmethod Hcreate)
      as (out & _ & _ & Hout & _).
    now exists out.
Qed.

(** Calling an interpolation function gives one value per position, each
    the function's value at that position. *)
Lemma call_pointwise f positions interpolated :
  call_interpolation_function K f positions = Ok interpolated ->
  length interpolated = length positions
  /\ forall i t,
      nth_error positions i = Some t ->
      exists v,
        nth_error interpolated i = Some v
        /\ call_interpolation_function K f [t] = Ok [v].
Proof.
  destruct f as [p|g]; cbn.
  - intros [= <-]. split; [apply length_map|].
    intros i t Hi. eexists. rewrite nth_error_map, Hi. now cbn.
  - unfold scipy.interp1d_eval.
    destruct (getitem_first (scipy.i_x g)); [|discriminate].
    destruct (getitem_last (scipy.i_x g)); [|discriminate].
    cbn. intros [= <-]. split; [apply length_map|].
    intros i t Hi. eexists. rewrite nth_error_map, Hi. now cbn.
Qed.

(** A created interpolation function has samples to stand on, and can be
    called on any sequence of positions. *)
Lemma created_is_callable x_values y_values method f :
  length x_values = length y_values ->
  create_interpolation_function K x_values y_values method = Ok f ->
  x_values <> []
  /\ forall positions,
      exists interpolated,
        call_interpolation_function K f positions = Ok interpolated.
Proof.
  intros Hlen. unfold create_interpolation_function.
  destruct (is_monotone_cubic method).
  - unfold scipy.PchipInterpolator.
    destruct (length x_values <? 2)%nat eqn:Hn; [discriminate|].
    destruct (negb (length x_values =? length y_values)%nat); [discriminate|].
    destruct (negb (forallb is_finite x_values)); [discriminate|].
    destruct (negb (forallb is_finite y_values)); [discriminate|].
    destruct (negb (scipy.strictly_increasing x_values)); [discriminate|].
    destruct (negb (forallb is_finite _)); [discriminate|].
    cbn. intros [= <-]. split.
    + intros ->. discriminate.
    + intros positions. eexists. reflexivity.
  - destruct (getitem_first y_values) as [y_first|] eqn:Hy0; [|discriminate].
    destruct (getitem_last y_values) as [y_last|]; [|discriminate].
    cbn.
    destruct (scipy.interp1d K x_values y_values method y_first y_last)
      as [g|] eqn:Hg; [|discriminate].
    cbn. intros [= <-].
    apply getitem_first_nonempty in Hy0.
    assert (Hx : x_values <> [])
      by (destruct x_values, y_values; cbn in *; congruence).
    split; [exact Hx|]. intros positions. cbn.
    destruct (interp1d_Ok _ _ _ _ _ _ Hg) as (Hsorted & _).
    assert (Hne : scipy.i_x g <> []).
    { intros Hnil. apply (f_equal (@length _)) in Hnil.
      rewrite Hsorted, sorted_positions_length in Hnil by assumption.
      destruct x_values; cbn in *; congruence. }
    destruct (getitem_first_Ok _ Hne) as [x_first Hfirst].
    destruct (getitem_last_Ok _ Hne) as [x_last Hlast].
    unfold scipy.interp1d_eval. rewrite Hfirst, Hlast. cbn.
    eexists. reflexivity.
Qed.



(** C4, amended. For equal-length inputs, a target whose count is not
    [len(x_values)] (the short-circuit does not fire) and the monotone-cubic
    method (in any letter case), once [PchipInterpolator] accepts the
    samples: the interpolation function is the PCHIP piecewise cubic over
    [x_values] with [extrapolate=True], the result is its value at every
    target, and a target below (above) all of [x_values] is evaluated by the
    first (last) cubic piece itself - no boundary value is substituted. *)
Theorem monotone_cubic_extrapolates x_values y_values x_new method p :
  length x_values = length y_values ->
  count_differs x_values x_new ->
  is_monotone_cubic method = true ->
  scipy.PchipInterpolator K x_values y_values true = Ok p ->
  p = {| scipy.p_c := scipy.pchip_coefficients K x_values y_values;
         scipy.p_x := x_values;
         scipy.p_extrapolate := true |}
  /\ create_interpolation_function K x_values y_values method
     = Ok (Pchip p)
  /\ signal_interpolate K x_values y_values x_new method
     = (targets <- resolve_x_new x_values x_new ;;
        Ok (map (scipy.ppoly_eval p) targets))
  /\ forall t,
      (Forall (fun x => (t <? x)%float = true) x_values ->
       scipy.ppoly_eval p t
       = scipy.evaluate_poly1
           (t - nth 0 x_values nan)%float
           (nth 0 (scipy.pchip_coefficients K x_values y_values) []))
      /\ (Forall (fun x => (x <? t)%float = true) x_values ->
          scipy.ppoly_eval p t
          = scipy.evaluate_poly1
              (t - nth (length x_values - 2) x_values nan)%float
              (nth (length x_values - 2)
                   (scipy.pchip_coefficients K x_values y_values) [])).
Proof.
  intros Hlen Hcount Hmethod Hp.
  assert (Hshape :
            p = {| scipy.p_c := scipy.pchip_coefficients K x_values y_values;
                   scipy.p_x := x_values;
                   scipy.p_extrapolate := true |}).
  { revert Hp. unfold scipy.PchipInterpolator.
    repeat match goal with
           | |- context [if ?c then Raise _ else _] =>
               destruct c; [discriminate|]
           end.
    now intros [= <-]. }
  assert (Hcreate : create_interpolation_function K x_values y_values method
                    = Ok (Pchip p)).
  { unfold create_interpolation_function. now rewrite Hmethod, Hp. }
  split; [exact Hshape|]. split; [exact Hcreate|]. split.
  - rewrite signal_interpolate_interpolates, Hcreate by assumption.
    reflexivity.
  - destruct (created_is_callable _ _ _ _ Hlen Hcreate) as [Hx _].
    intros t. rewrite Hshape. unfold scipy.ppoly_eval, scipy.find_interval.
    cbn [scipy.p_x scipy.p_c scipy.p_extrapolate].
    destruct x_values as [|a x']; [easy|].
    assert (Hlast : In (last (a :: x') a) (a :: x')).
    { destruct (exists_last Hx) as (l & b & ->).
      rewrite last_last. apply in_or_app. right. now left. }
    split; intros Hall; rewrite Forall_forall in Hall.
    + assert (Ha : (t <? a)%float = true) by (apply Hall; now left).
      rewrite (ltb_not_leb _ _ Ha), Ha. reflexivity.
    + assert (Ha : (a <? t)%float = true) by (apply Hall; now left).
      assert (Hb : (last (a :: x') a <? t)%float = true) by now apply Hall.
      rewrite (ltb_not_leb _ _ Hb), andb_false_r, (ltb_asym _ _ Ha), Hb.
      reflexivity.
Qed.

End SignalInterpolateFacts.

(** * Properties of [signal_rate] *)

Section SignalRateFacts.

Variable Peaks : Type.
Variable signal_period :
  Peaks -> Z -> option Z -> method_t -> result (list float).

(** C5. Whatever period array [signal_period] returns, [signal_rate]
    returns the array of [60 / period[i]], of the same length and in the
    same order. *)
Theorem rate_is_60_over_period
        peaks sampling_rate desired_length interpolation_method period :
  signal_period peaks sampling_rate desired_length interpolation_method
  = Ok period ->
  exists rate,
    signal_rate Peaks signal_period peaks sampling_rate desired_length
                interpolation_method = Ok rate
    /\ length rate = length period
    /\ forall i p,
        nth_error period i = Some p ->
        nth_error rate i = Some (60 / p)%float.
Proof.
  intros Hperiod. unfold signal_rate. rewrite Hperiod. cbn.
  exists (np.rdivide 60 period). unfold np.rdivide.
  split; [reflexivity | split].
  - apply length_map.
  - intros i p Hi. rewrite nth_error_map, Hi. reflexivity.
Qed.

(** C7, amended. Whatever period array [signal_period] returns,
    [signal_rate] returns - it does not raise - the array of the quotients
    [60 / p] themselves: for a zero period ([0.0] or [-0.0]) the entry is an
    infinity; for a negative period other than minus infinity it is
    negative (below zero, minus infinity included); for the period minus
    infinity it is the negative zero [-0.0], which is not below zero. *)
Theorem zero_and_negative_periods
        peaks sampling_rate desired_length interpolation_method period :
  signal_period peaks sampling_rate desired_length interpolation_method
  = Ok period ->
  exists rate,
    signal_rate Peaks signal_period peaks sampling_rate desired_length
                interpolation_method = Ok rate
    /\ forall i p,
        nth_error period i = Some p ->
        nth_error rate i = Some (60 / p)%float
        /\ ((p =? 0)%float = true -> is_infinity (60 / p) = true)
        /\ ((p <? 0)%float = true ->
            (60 / p <? 0)%float = true
            \/ (p = neg_infinity /\ (60 / p)%float = (-0)%float)).
Proof.
  intros Hperiod. unfold signal_rate. rewrite Hperiod. cbn.
  exists (np.rdivide 60 period). split; [reflexivity|].
  intros i p Hi. unfold np.rdivide. rewrite nth_error_map, Hi.
  split; [reflexivity|]. split.
  - apply div_60_zero.
  - apply div_60_negative.
Qed.

End SignalRateFacts.

(** * The properties at concrete inputs *)

Section Instances.

Local Open Scope float_scope.

Local Abbreviation K := LinearKernels.kernels.

(** Three samples, three targets at other positions: the values come back
    untouched, for the integer count as well. *)
Lemma identity_short_circuit_at_three :
  signal_interpolate K [0; 1; 2] [5; 6; 7] (XInt 3) (MStr "cubic")
  = Ok [5; 6; 7]
  /\ signal_interpolate K [0; 1; 2] [5; 6; 7] (XSeq [10; 20; 30])
                        (MStr "cubic")
     = Ok [5; 6; 7].
Proof.
  destruct (identity_short_circuit K [0; 1; 2] [5; 6; 7] (MStr "cubic")
                                   eq_refl) as [Hint Hseq].
  split; [exact Hint | exact (Hseq [10; 20; 30] eq_refl)].
Defined.

(** Two positions for one value: the length error, although [x_new] is
    [None] and the method unknown. *)
Lemma length_mismatch_at_two_one :
  length [0; 1] <> length [3]
  /\ signal_interpolate K [0; 1] [3] XNone (MStr "no such method")
     = Raise length_error.
Proof.
  assert (Hlen : length [0; 1] <> length [3]) by discriminate.
  split; [exact Hlen|].
  exact (length_mismatch_raises K [0; 1] [3] XNone (MStr "no such method")
                                Hlen).
Defined.

(** Linear interpolation of three samples at four targets: the two
    outside the samples get the first and the last value. *)
Lemma flat_extrapolation_linear :
  exists interpolated,
    signal_interpolate K [0; 1; 2] [0; 10; 40] (XSeq [-1; 0.5; 1.5; 3])
                       (MStr "linear") = Ok interpolated
    /\ nth_error interpolated 0 = Some 0
    /\ nth_error interpolated 3 = Some 40.
Proof.
  destruct (flat_extrapolation K [0; 1; 2] [0; 10; 40] [-1; 0.5; 1.5; 3]
                               (MStr "linear") eq_refl)
    as [Hvalues Hreturns].
  - discriminate.
  - reflexivity.
  - edestruct Hreturns as [interpolated Hout]; [vm_compute; reflexivity|].
    exists interpolated. split; [exact Hout|].
    destruct (Hvalues interpolated Hout)
      as (y_first & y_last & Hy0 & Hy1 & _ & Hpoints).
    injection Hy0 as <-. injection Hy1 as <-. split.
    + apply (Hpoints 0%nat (-1) eq_refl). repeat constructor.
    + apply (Hpoints 3%nat 3 eq_refl). repeat constructor.
Defined.

(** Monotone-cubic on two samples, in mixed case: the targets outside the
    samples follow the cubic, they do not get the boundary values 0 and 1. *)
Lemma monotone_cubic_extrapolates_two_samples :
  signal_interpolate K [0; 1] [0; 1] (XSeq [-1; 0.5; 2])
                     (MStr "Monotone_Cubic")
  = Ok [-1; 0.5; 2].
Proof.
  edestruct (monotone_cubic_extrapolates K [0; 1] [0; 1]
                                         (XSeq [-1; 0.5; 2])
                                         (MStr "Monotone_Cubic"))
    as (Hp & _ & Hout & _).
  - reflexivity.
  - cbn. discriminate.
  - reflexivity.
  - vm_compute. reflexivity.
  - rewrite Hout, Hp. reflexivity.
Defined.



(** Monotone-cubic with as many targets as samples: the two targets
    outside the samples get the sample values 0 and 1, where the cubic
    through the samples has the values -1 and 2. *)
Lemma monotone_cubic_short_circuit :
  exists p,
    is_monotone_cubic (MStr "monotone_cubic") = true
    /\ scipy.PchipInterpolator K [0; 1] [0; 1] true = Ok p
    /\ map (scipy.ppoly_eval p) [-1; 2] = [-1; 2]
    /\ signal_interpolate K [0; 1] [0; 1] (XSeq [-1; 2])
                          (MStr "monotone_cubic")
       = Ok [0; 1]
    /\ signal_interpolate K [0; 1] [0; 1] (XSeq [-1; 2])
                          (MStr "monotone_cubic")
       <> Ok (map (scipy.ppoly_eval p) [-1; 2]).
Proof.
  eexists. split; [reflexivity|]. split; [reflexivity|].
  split; [reflexivity|]. split; [reflexivity|].
  intros Hsame.
  apply (f_equal (fun r => match r with
                           | Ok (v :: _) => (v =? 0)
                           | _ => false
                           end)) in Hsame.
  discriminate Hsame.
Qed.

(** A cubic spline over two samples cannot be built: the constructor's
    [ValueError] comes out. *)
Lemma construction_error_cubic_two_samples :
  signal_interpolate K [0; 1] [3; 4] (XSeq [0.5]) (MStr "cubic")
  = Raise (ValueError "x and y arrays must have at least 4 entries").
Proof.
  destruct (construction_error_propagates
              K [0; 1] [3; 4] (XSeq [0.5]) (MStr "cubic")
              (ValueError "x and y arrays must have at least 4 entries")
              eq_refl) as [_ Hinterp1d].
  - cbn. discriminate.
  - exact (Hinterp1d eq_refl 3 4 eq_refl eq_refl eq_refl).
Defined.

(** An unknown method, for which no interpolation function exists, with
    as many targets as samples: the values come back. *)
Lemma short_circuit_unknown_method :
  create_interpolation_function K [0; 1] [3; 4] (MStr "no such method")
  = Raise (NotImplementedError
             "no such method is unsupported: Use fitpack routines for other types.")
  /\ signal_interpolate K [0; 1] [3; 4] (XInt 2) (MStr "no such method")
     = Ok [3; 4].
Proof.
  split; [reflexivity|].
  destruct (short_circuit_never_raises
              K [0; 1] [3; 4] (XInt 2) (MStr "no such method") eq_refl)
    as [Hok _].
  - left. reflexivity.
  - exact Hok.
Defined.

(** The call [signal_interpolate([0, 1], [3, 4])]. *)
Lemma default_x_new_two_samples :
  signal_interpolate K [0; 1] [3; 4] default_x_new default_method
  = Raise (TypeError "object of type 'NoneType' has no len()").
Proof.
  exact (proj1 (default_x_new_raises_TypeError K [0; 1] [3; 4]
                                               default_method)
               eq_refl).
Defined.

(** Periods of one second and of half a second: 60 and 120 per minute. *)
Lemma rate_of_stub_periods :
  exists rate,
    signal_rate (list Z) (stub_signal_period [1; 0.5; 1])
                [0; 1000; 1500; 2500]%Z default_sampling_rate
                default_desired_length default_interpolation_method
    = Ok rate
    /\ nth_error rate 0 = Some 60
    /\ nth_error rate 1 = Some 120
    /\ length rate = 3%nat.
Proof.
  destruct (rate_is_60_over_period
              (list Z) (stub_signal_period [1; 0.5; 1])
              [0; 1000; 1500; 2500]%Z default_sampling_rate
              default_desired_length default_interpolation_method
              [1; 0.5; 1] eq_refl) as (rate & Hrate & Hlen & Hnth).
  exists rate. split; [exact Hrate|]. split; [|split].
  - exact (Hnth 0%nat 1 eq_refl).
  - exact (Hnth 1%nat 0.5 eq_refl).
  - exact Hlen.
Defined.

(** Zero, negative and infinite periods pass through the division. *)
Lemma rate_of_degenerate_periods :
  exists rate,
    signal_rate (list Z) (stub_signal_period [0; -0; -2; neg_infinity])
                [0; 1000]%Z default_sampling_rate
                default_desired_length default_interpolation_method
    = Ok rate
    /\ nth_error rate 0 = Some infinity
    /\ nth_error rate 1 = Some neg_infinity
    /\ nth_error rate 2 = Some (-30)
    /\ nth_error rate 3 = Some (-0).
Proof.
  destruct (zero_and_negative_periods
              (list Z) (stub_signal_period [0; -0; -2; neg_infinity])
              [0; 1000]%Z default_sampling_rate
              default_desired_length default_interpolation_method
              [0; -0; -2; neg_infinity] eq_refl) as (rate & Hrate & Hnth).
  exists rate. split; [exact Hrate|]. repeat split.
  - exact (proj1 (Hnth 0%nat 0 eq_refl)).
  - exact (proj1 (Hnth 1%nat (-0) eq_refl)).
  - exact (proj1 (Hnth 2%nat (-2) eq_refl)).
  - exact (proj1 (Hnth 3%nat neg_infinity eq_refl)).
Defined.

(** The period minus infinity is negative; its rate is the negative zero,
    which is not below zero. *)
Lemma negative_infinite_period_rate :
  (neg_infinity <? 0) = true
  /\ signal_rate (list Z) (stub_signal_period [neg_infinity])
                 [0; 1000]%Z default_sampling_rate
                 default_desired_length default_interpolation_method
     = Ok [-0]
  /\ (-0 <? 0) = false.
Proof. repeat split. Qed.

End Instances.

(** * Further properties of [signal_interpolate] *)

Section SignalInterpolateMore.

Variable K : scipy.kernels.

(** A call that returns had inputs of equal length. *)
Lemma returns_same_length x_values y_values x_new method interpolated :
  signal_interpolate K x_values y_values x_new method = Ok interpolated ->
  length x_values = length y_values.
Proof.
  unfold signal_interpolate.
  destruct (length x_values =? length y_values)%nat eqn:Hlen; cbn.
  - intros _. now apply Nat.eqb_eq.
  - discriminate.
Qed.

(** [linspace] returns only for a count from 0 to [max_size]. *)
Lemma linspace_returns_nonneg start stop num grid :
  np.linspace start stop num = Ok grid -> (0 <= num <= np.max_size)%Z.
Proof.
  unfold np.linspace. destruct (Z.ltb_spec num 0); [discriminate|].
  destruct (Z.ltb_spec np.max_size num); [discriminate | lia].
Qed.

Lemma linspace_length start stop num grid :
  np.linspace start stop num = Ok grid -> Z.of_nat (length grid) = num.
Proof.
  intros Hgrid.
  destruct (linspace_Ok start stop num (linspace_returns_nonneg _ _ _ _ Hgrid))
    as (grid' & Hgrid' & Hsize & _).
  rewrite Hgrid in Hgrid'. injection Hgrid' as <-. exact Hsize.
Qed.

(** X1. Whatever [signal_interpolate] returns has as many values as the
    target asks for: [len(x_new)] for a sequence, [x_new] itself for an
    integer - on the short-circuit as well as after an interpolation. *)
Theorem result_has_target_count
        x_values y_values x_new method interpolated :
  signal_interpolate K x_values y_values x_new method = Ok interpolated ->
  match x_new with
  | XInt n => Z.of_nat (length interpolated) = n
  | XSeq positions => length interpolated = length positions
  | XNone => False
  end.
Proof.
  intros Hout. pose proof (returns_same_length _ _ _ _ _ Hout) as Hlen.
  rewrite signal_interpolate_same_length in Hout by assumption.
  destruct x_new as [|n|positions]; cbn in Hout.
  - discriminate.
  - destruct (Z.eqb_spec (Z.of_nat (length x_values)) n) as [Hn|Hn].
    + injection Hout as <-. now rewrite <- Hlen.
    + destruct (create_interpolation_function K x_values y_values method)
        as [f|]; [|discriminate].
      cbn in Hout.
      destruct (getitem_first x_values) as [x_first|]; [|discriminate].
      destruct (getitem_last x_values) as [x_last|]; [|discriminate].
      cbn in Hout.
      destruct (np.linspace x_first x_last n) as [grid|] eqn:Hgrid;
        [|discriminate].
      cbn in Hout. destruct (call_pointwise _ _ _ _ Hout) as [Hsize _].
      rewrite Hsize. now apply linspace_length in Hgrid.
  - destruct (Nat.eqb_spec (length x_values) (length positions)) as [Hn|Hn].
    + injection Hout as <-. now rewrite <- Hlen.
    + destruct (create_interpolation_function K x_values y_values method)
        as [f|]; [|discriminate].
      cbn in Hout. now destruct (call_pointwise _ _ _ _ Hout) as [Hsize _].
Qed.

(** X2. An integer target is a shorthand: with [n] other than
    [len(x_values)], the call with [n] behaves - result or exception - as
    the call with the sequence [np.linspace(x_values[0], x_values[-1], n)]. *)
Theorem integer_target_is_linspace
        x_values y_values n method x_first x_last grid :
  length x_values = length y_values ->
  n <> Z.of_nat (length x_values) ->
  getitem_first x_values = Ok x_first ->
  getitem_last x_values = Ok x_last ->
  np.linspace x_first x_last n = Ok grid ->
  signal_interpolate K x_values y_values (XInt n) method
  = signal_interpolate K x_values y_values (XSeq grid) method.
Proof.
  intros Hlen Hcount Hfirst Hlast Hgrid.
  assert (Hsize : length grid <> length x_values).
  { apply linspace_length in Hgrid. intros Hsame. apply Hcount.
    now rewrite <- Hgrid, Hsame. }
  rewrite (signal_interpolate_interpolates K x_values y_values (XInt n))
    by assumption.
  rewrite signal_interpolate_seq by assumption.
  cbn. rewrite Hfirst, Hlast. cbn. rewrite Hgrid. reflexivity.
Qed.

(** X3. A negative integer target never gives a result: with equal-length
    inputs the exception is the one of the interpolation function's
    construction when that fails, and numpy's [ValueError] on the count
    otherwise. *)
Theorem negative_count_raises x_values y_values n method :
  (n < 0)%Z ->
  (exists e,
      signal_interpolate K x_values y_values (XInt n) method = Raise e)
  /\ (length x_values = length y_values ->
      signal_interpolate K x_values y_values (XInt n) method
      = match create_interpolation_function K x_values y_values method with
        | Ok _ =>
            Raise (ValueError ("Number of samples, " ++ Py.str_of_int n
                               ++ ", must be non-negative."))
        | Raise e => Raise e
        end).
Proof.
  intros Hneg.
  assert (Hequal :
            length x_values = length y_values ->
            signal_interpolate K x_values y_values (XInt n) method
            = match create_interpolation_function K x_values y_values method
              with
              | Ok _ =>
                  Raise (ValueError ("Number of samples, " ++ Py.str_of_int n
                                     ++ ", must be non-negative."))
              | Raise e => Raise e
              end).
  { intros Hlen.
    rewrite signal_interpolate_interpolates by (cbn; lia || assumption).
    destruct (create_interpolation_function K x_values y_values method)
      as [f|e] eqn:Hcreate; [|reflexivity].
    destruct (created_is_callable _ _ _ _ _ Hlen Hcreate) as [Hx _].
    destruct (getitem_first_Ok _ Hx) as [x_first Hfirst].
    destruct (getitem_last_Ok _ Hx) as [x_last Hlast].
    cbn. rewrite Hfirst, Hlast. cbn. unfold np.linspace.
    apply Z.ltb_lt in Hneg. now rewrite Hneg. }
  split; [|exact Hequal].
  destruct (Nat.eq_dec (length x_values) (length y_values)) as [Hlen|Hlen].
  - rewrite (Hequal Hlen).
    destruct (create_interpolation_function K x_values y_values method);
      eexists; reflexivity.
  - exists length_error. unfold signal_interpolate.
    apply Nat.eqb_neq in Hlen. now rewrite Hlen.
Qed.

(** X4. No samples, and a target that asks for some values: every method
    other than monotone-cubic fails with the [IndexError] of
    [y_values[0]], before [interp1d] sees the method; monotone-cubic fails
    with the [ValueError] of [PchipInterpolator]. *)
Theorem empty_samples_raise x_new method :
  count_differs [] x_new ->
  signal_interpolate K [] [] x_new method
  = Raise (if is_monotone_cubic method
           then ValueError "`x` must contain at least 2 elements."
           else IndexError "list index out of range").
Proof.
  intros Hcount.
  rewrite signal_interpolate_interpolates by easy.
  unfold create_interpolation_function.
  destruct (is_monotone_cubic method); reflexivity.
Qed.

(** X5. The method is recognised as monotone-cubic whatever its letter
    case, and every spelling behaves alike: two methods that both pass the
    test of line 72 give the same outcome on the same inputs. *)
Theorem monotone_cubic_spellings_agree x_values y_values x_new m1 m2 :
  is_monotone_cubic m1 = true ->
  is_monotone_cubic m2 = true ->
  signal_interpolate K x_values y_values x_new m1
  = signal_interpolate K x_values y_values x_new m2.
Proof.
  intros H1 H2. unfold signal_interpolate, create_interpolation_function.
  now rewrite H1, H2.
Qed.

(** X7. Monotone-cubic does not sort: past the short-circuit, with fewer
    than two samples or with positions that are not strictly increasing,
    the call fails with a [ValueError] of [PchipInterpolator]. *)
Theorem monotone_cubic_needs_increasing_positions
        x_values y_values x_new method :
  length x_values = length y_values ->
  count_differs x_values x_new ->
  is_monotone_cubic method = true ->
  (length x_values < 2)%nat \/ scipy.strictly_increasing x_values = false ->
  exists msg,
    signal_interpolate K x_values y_values x_new method
    = Raise (ValueError msg).
Proof.
  intros Hlen Hcount Hmethod Hbad.
  rewrite signal_interpolate_interpolates by assumption.
  unfold create_interpolation_function. rewrite Hmethod.
  unfold scipy.PchipInterpolator.
  destruct (Nat.ltb_spec (length x_values) 2) as [|Hsize];
    [eexists; reflexivity|].
  destruct Hbad as [Hshort | Hbad]; [lia|].
  rewrite Hbad.
  destruct (negb (length x_values =? length y_values)%nat);
    [eexists; reflexivity|].
  destruct (negb (forallb is_finite x_values)); [eexists; reflexivity|].
  destruct (negb (forallb is_finite y_values)); [eexists; reflexivity|].
  eexists. reflexivity.
Qed.

(** X8. A spline of order [k] needs more than [k] samples: past the
    short-circuit, with at most [k] samples, the call never gives a
    result.  For the default method, "quadratic", that is every call with
    one or two samples. *)
Theorem spline_needs_more_samples_than_order
        x_values y_values x_new method k :
  length x_values = length y_values ->
  count_differs x_values x_new ->
  is_monotone_cubic method = false ->
  scipy.kind_of_method method = Ok (scipy.Spline k) ->
  (Z.of_nat (length x_values) <= k)%Z ->
  exists e,
    signal_interpolate K x_values y_values x_new method = Raise e.
Proof.
  intros Hlen Hcount Hmethod Hkind Hfew.
  rewrite signal_interpolate_interpolates by assumption.
  unfold create_interpolation_function. rewrite Hmethod.
  destruct (getitem_first y_values); [|eexists; reflexivity].
  destruct (getitem_last y_values); [|eexists; reflexivity].
  cbn. unfold scipy.interp1d. rewrite Hkind. cbn.
  destruct (scipy.interp1d_reject K _ _ _); [eexists; reflexivity|].
  rewrite sorted_positions_length by assumption.
  assert (Hlt : (Z.of_nat (length x_values) <? k + 1)%Z = true)
    by (apply Z.ltb_lt; lia).
  rewrite Hlt. eexists. reflexivity.
Qed.

End SignalInterpolateMore.

(** * Further properties of [signal_rate] *)

Section QuotientOf60.

Local Open Scope float_scope.

(** The shapes [60 / p] can take, by the shape of [p]. *)
Lemma Prim2SF_div_60 p :
  match Prim2SF p with
  | S754_nan => Prim2SF (60 / p) = S754_nan
  | S754_zero s => Prim2SF (60 / p) = S754_infinity s
  | S754_infinity s => Prim2SF (60 / p) = S754_zero s
  | S754_finite s _ _ =>
      (exists m e, Prim2SF (60 / p) = S754_finite s m e)
      \/ Prim2SF (60 / p) = S754_infinity s
  end.
Proof.
  rewrite FloatAxioms.div_spec.
  pose proof (Prim2SF_valid p) as Hvalid.
  destruct (Prim2SF p) as [s|s| |s m e]; try reflexivity.
  exact (SFdiv_60_finite s m e Hvalid).
Qed.

(** [60 / p] is NaN exactly when [p] is. *)
Lemma div_60_is_nan p : is_nan (60 / p) = is_nan p.
Proof.
  pose proof (Prim2SF_div_60 p) as Hshape.
  destruct (is_nan p) eqn:Hp.
  - apply is_nan_Prim2SF in Hp. rewrite Hp in Hshape.
    now apply is_nan_Prim2SF.
  - destruct (is_nan (60 / p)) eqn:Hr; [|reflexivity].
    apply is_nan_Prim2SF in Hr. rewrite Hr in Hshape.
    destruct (Prim2SF p) as [s|s| |s m e] eqn:E; try discriminate.
    + apply is_nan_Prim2SF in E. congruence.
    + destruct Hshape as [(m' & e' & H) | H]; discriminate.
Qed.

(** [60 / p] is a zero exactly when [p] is an infinity. *)
Lemma div_60_is_zero p : (60 / p =? 0) = is_infinity p.
Proof.
  pose proof (Prim2SF_div_60 p) as Hshape.
  unfold is_infinity.
  rewrite !FloatAxioms.eqb_spec, FloatAxioms.abs_spec, Prim2SF_infinity.
  change (Prim2SF 0) with (S754_zero false).
  destruct (Prim2SF p) as [s|s| |s m e].
  - rewrite Hshape. now destruct s.
  - rewrite Hshape. now destruct s.
  - rewrite Hshape. reflexivity.
  - destruct Hshape as [(m' & e' & ->) | ->]; now destruct s.
Qed.

(** A positive period gives a positive rate, or the positive zero when the
    period is plus infinity. *)
Lemma div_60_positive p :
  (0 <? p) = true ->
  (0 <? 60 / p) = true \/ (p = infinity /\ 60 / p = 0).
Proof.
  pose proof (Prim2SF_div_60 p) as Hshape.
  pose proof (SF2Prim_Prim2SF p) as Hp.
  pose proof (SF2Prim_Prim2SF (60 / p)) as Hr.
  rewrite !FloatAxioms.ltb_spec. unfold SFltb.
  change (Prim2SF 0) with (S754_zero false).
  destruct (Prim2SF p) as [[]|[]| |[] m e]; cbn; try discriminate; intros _.
  - right. rewrite Hshape in Hr. split; [now rewrite <- Hp | now rewrite <- Hr].
  - left. destruct Hshape as [(m' & e' & ->) | ->]; reflexivity.
Qed.

End QuotientOf60.

Section SignalRateMore.

Variable Peaks : Type.
Variable signal_period :
  Peaks -> Z -> option Z -> method_t -> result (list float).

(** The rate at an index, from the period at that index. *)
Lemma rate_at peaks sampling_rate desired_length interpolation_method
      rate i r :
  signal_rate Peaks signal_period peaks sampling_rate desired_length
              interpolation_method = Ok rate ->
  nth_error rate i = Some r ->
  exists period p,
    signal_period peaks sampling_rate desired_length interpolation_method
    = Ok period
    /\ nth_error period i = Some p
    /\ r = (60 / p)%float.
Proof.
  unfold signal_rate.
  destruct (signal_period peaks sampling_rate desired_length
                          interpolation_method) as [period|];
    [|discriminate].
  cbn. intros [= <-]. unfold np.rdivide. rewrite nth_error_map.
  destruct (nth_error period i) as [p|] eqn:Hp; [|discriminate].
  cbn. intros [= <-]. now exists period, p.
Qed.

(** X9. [signal_rate] brings in no NaN: an entry of the returned rate is
    NaN exactly when the period it comes from is NaN.  In particular a zero
    period, finite or not, never gives NaN. *)
Theorem rate_is_nan_iff_period_is
        peaks sampling_rate desired_length interpolation_method
        period rate i p r :
  signal_period peaks sampling_rate desired_length interpolation_method
  = Ok period ->
  signal_rate Peaks signal_period peaks sampling_rate desired_length
              interpolation_method = Ok rate ->
  nth_error period i = Some p ->
  nth_error rate i = Some r ->
  is_nan r = is_nan p.
Proof.
  intros Hperiod Hrate Hp Hr.
  destruct (rate_at _ _ _ _ _ _ _ Hrate Hr) as (period' & p' & Hperiod' & Hp' & ->).
  rewrite Hperiod in Hperiod'. injection Hperiod' as <-.
  rewrite Hp in Hp'. injection Hp' as <-.
  apply div_60_is_nan.
Qed.

(** X10. The rate does not underflow: an entry of the returned rate is a
    zero exactly when the period it comes from is infinite; no finite
    period, however large, has the rate 0. *)
Theorem rate_is_zero_iff_period_is_infinite
        peaks sampling_rate desired_length interpolation_method
        period rate i p r :
  signal_period peaks sampling_rate desired_length interpolation_method
  = Ok period ->
  signal_rate Peaks signal_period peaks sampling_rate desired_length
              interpolation_method = Ok rate ->
  nth_error period i = Some p ->
  nth_error rate i = Some r ->
  (r =? 0)%float = is_infinity p.
Proof.
  intros Hperiod Hrate Hp Hr.
  destruct (rate_at _ _ _ _ _ _ _ Hrate Hr) as (period' & p' & Hperiod' & Hp' & ->).
  rewrite Hperiod in Hperiod'. injection Hperiod' as <-.
  rewrite Hp in Hp'. injection Hp' as <-.
  apply div_60_is_zero.
Qed.

(** X11. A positive period has a positive rate (an infinity when the
    quotient overflows); only the period plus infinity gives the positive
    zero. *)
Theorem positive_period_positive_rate
        peaks sampling_rate desired_length interpolation_method
        period rate i p r :
  signal_period peaks sampling_rate desired_length interpolation_method
  = Ok period ->
  signal_rate Peaks signal_period peaks sampling_rate desired_length
              interpolation_method = Ok rate ->
  nth_error period i = Some p ->
  nth_error rate i = Some r ->
  (0 <? p)%float = true ->
  (0 <? r)%float = true \/ (p = infinity /\ r = 0%float).
Proof.
  intros Hperiod Hrate Hp Hr Hpositive.
  destruct (rate_at _ _ _ _ _ _ _ Hrate Hr) as (period' & p' & Hperiod' & Hp' & ->).
  rewrite Hperiod in Hperiod'. injection Hperiod' as <-.
  rewrite Hp in Hp'. injection Hp' as <-.
  now apply div_60_positive.
Qed.

End SignalRateMore.

(** * The further properties at concrete inputs *)

Section MoreInstances.

Local Open Scope float_scope.

Local Abbreviation K := LinearKernels.kernels.

(** Five values for the count 5, two for a sequence of two targets. *)
Lemma result_has_target_count_five_and_two :
  Z.of_nat (length [0; 5; 10; 25; 40]) = 5%Z
  /\ length [5; 40] = length [0.5; 7].
Proof.
  split.
  - exact (result_has_target_count
             K [0; 1; 2] [0; 10; 40] (XInt 5) (MStr "linear")
             [0; 5; 10; 25; 40] eq_refl).
  - exact (result_has_target_count
             K [0; 1; 2] [0; 10; 40] (XSeq [0.5; 7]) (MStr "linear")
             [5; 40] eq_refl).
Defined.

(** The count 5 over samples from 0 to 2, and the grid written out. *)
Lemma integer_target_is_linspace_five :
  signal_interpolate K [0; 1; 2] [0; 10; 40] (XInt 5) (MStr "linear")
  = signal_interpolate K [0; 1; 2] [0; 10; 40]
                       (XSeq [0; 0.5; 1; 1.5; 2]) (MStr "linear").
Proof.
  apply (integer_target_is_linspace
           K [0; 1; 2] [0; 10; 40] 5 (MStr "linear") 0 2
           [0; 0.5; 1; 1.5; 2]); try reflexivity.
  discriminate.
Defined.

(** The count -1 with a method that can be built, and with one that
    cannot. *)
Lemma negative_count_raises_minus_one :
  signal_interpolate K [0; 1] [3; 4] (XInt (-1)) (MStr "linear")
  = Raise (ValueError "Number of samples, -1, must be non-negative.")
  /\ signal_interpolate K [0; 1] [3; 4] (XInt (-1)) (MStr "cubic")
     = Raise (ValueError "x and y arrays must have at least 4 entries").
Proof.
  split.
  - exact (proj2 (negative_count_raises K [0; 1] [3; 4] (-1) (MStr "linear")
                                        eq_refl) eq_refl).
  - exact (proj2 (negative_count_raises K [0; 1] [3; 4] (-1) (MStr "cubic")
                                        eq_refl) eq_refl).
Defined.

(** No samples and one target, for an unknown method and for
    monotone-cubic. *)
Lemma empty_samples_raise_one_target :
  signal_interpolate K [] [] (XSeq [1]) (MStr "no such method")
  = Raise (IndexError "list index out of range")
  /\ signal_interpolate K [] [] (XSeq [1]) (MStr "monotone_cubic")
     = Raise (ValueError "`x` must contain at least 2 elements.").
Proof.
  assert (Hcount : count_differs [] (XSeq [1])) by (cbn; discriminate).
  split.
  - exact (empty_samples_raise K (XSeq [1]) (MStr "no such method") Hcount).
  - exact (empty_samples_raise K (XSeq [1]) (MStr "monotone_cubic") Hcount).
Defined.

(** Lower case and mixed case. *)
Lemma monotone_cubic_spellings_agree_mixed_case :
  signal_interpolate K [0; 1] [0; 1] (XSeq [-1; 0.5; 2])
                     (MStr "MONOTONE_Cubic")
  = signal_interpolate K [0; 1] [0; 1] (XSeq [-1; 0.5; 2])
                       (MStr "monotone_cubic").
Proof.
  exact (monotone_cubic_spellings_agree
           K [0; 1] [0; 1] (XSeq [-1; 0.5; 2])
           (MStr "MONOTONE_Cubic") (MStr "monotone_cubic") eq_refl eq_refl).
Defined.

(** Two samples given in decreasing order: monotone-cubic refuses them,
    the linear method does not. *)
Lemma monotone_cubic_refuses_decreasing_positions :
  (exists msg,
      signal_interpolate K [1; 0] [3; 4] (XSeq [0.5]) (MStr "monotone_cubic")
      = Raise (ValueError msg))
  /\ signal_interpolate K [1; 0] [3; 4] (XSeq [0.5]) (MStr "linear")
     = Ok [3.5].
Proof.
  split; [|reflexivity].
  apply (monotone_cubic_needs_increasing_positions
           K [1; 0] [3; 4] (XSeq [0.5]) (MStr "monotone_cubic"));
    try reflexivity.
  - cbn. discriminate.
  - right. reflexivity.
Defined.

(** The default method on two samples. *)
Lemma default_method_needs_three_samples :
  exists e,
    signal_interpolate K [0; 1] [3; 4] (XSeq [0.5]) default_method = Raise e.
Proof.
  apply (spline_needs_more_samples_than_order
           K [0; 1] [3; 4] (XSeq [0.5]) default_method 2);
    try reflexivity.
  cbn. discriminate.
Defined.

(** Periods 1, 0, NaN and plus infinity. *)
Lemma rate_is_nan_iff_period_is_at_four :
  is_nan (60 / 0) = is_nan 0 /\ is_nan (60 / nan) = is_nan nan.
Proof.
  split.
  - exact (rate_is_nan_iff_period_is
             (list Z) (stub_signal_period [1; 0; nan; infinity])
             [0; 1000]%Z default_sampling_rate default_desired_length
             default_interpolation_method
             [1; 0; nan; infinity] [60; infinity; nan; 0] 1%nat 0 (60 / 0)
             eq_refl eq_refl eq_refl eq_refl).
  - exact (rate_is_nan_iff_period_is
             (list Z) (stub_signal_period [1; 0; nan; infinity])
             [0; 1000]%Z default_sampling_rate default_desired_length
             default_interpolation_method
             [1; 0; nan; infinity] [60; infinity; nan; 0] 2%nat nan (60 / nan)
             eq_refl eq_refl eq_refl eq_refl).
Defined.

Lemma rate_is_zero_iff_period_is_infinite_at_four :
  (60 / 1 =? 0) = is_infinity 1
  /\ (60 / infinity =? 0) = is_infinity infinity.
Proof.
  split.
  - exact (rate_is_zero_iff_period_is_infinite
             (list Z) (stub_signal_period [1; 0; nan; infinity])
             [0; 1000]%Z default_sampling_rate default_desired_length
             default_interpolation_method
             [1; 0; nan; infinity] [60; infinity; nan; 0] 0%nat 1 (60 / 1)
             eq_refl eq_refl eq_refl eq_refl).
  - exact (rate_is_zero_iff_period_is_infinite
             (list Z) (stub_signal_period [1; 0; nan; infinity])
             [0; 1000]%Z default_sampling_rate default_desired_length
             default_interpolation_method
             [1; 0; nan; infinity] [60; infinity; nan; 0] 3%nat infinity
             (60 / infinity) eq_refl eq_refl eq_refl eq_refl).
Defined.

Lemma positive_period_positive_rate_at_four :
  ((0 <? 60 / 1) = true \/ (1 = infinity /\ 60 / 1 = 0))
  /\ ((0 <? 60 / infinity) = true
      \/ (infinity = infinity /\ 60 / infinity = 0)).
Proof.
  split.
  - exact (positive_period_positive_rate
             (list Z) (stub_signal_period [1; 0; nan; infinity])
             [0; 1000]%Z default_sampling_rate default_desired_length
             default_interpolation_method
             [1; 0; nan; infinity] [60; infinity; nan; 0] 0%nat 1 (60 / 1)
             eq_refl eq_refl eq_refl eq_refl eq_refl).
  - exact (positive_period_positive_rate
             (list Z) (stub_signal_period [1; 0; nan; infinity])
             [0; 1000]%Z default_sampling_rate default_desired_length
             default_interpolation_method
             [1; 0; nan; infinity] [60; infinity; nan; 0] 3%nat infinity
             (60 / infinity) eq_refl eq_refl eq_refl eq_refl eq_refl).
Defined.

End MoreInstances.
